(** * Theme resolution and synchronisation of react-next-theme

    A shallow embedding of the JavaScript sources
      - src/utils/themeInitializer.js   (standalone bootstrap script)
      - src/utils/getThemeScript.js     (script text handed to the framework)
      - src/context/ThemeContext.js     (provider, current variant)
      - the earlier provider variants kept next to it
    over an explicit model of the browser objects they touch
    (localStorage, window.matchMedia, document.documentElement) and of the
    part of React they rely on (one useState cell, one useEffect). *)

From stdpp Require Import base option list gmap strings.

Set Default Proof Using "Type".
Open Scope string_scope.

(** ** JavaScript values and exceptions *)

Module JS.

(** The values that flow through the sources: [getItem] yields a string
    or [null], [typeof window !== 'undefined' && ...] may yield [false]. *)
Inductive value : Type :=
| VUndefined
| VNull
| VBool (b : bool)
| VStr (s : string).

#[global] Instance value_eq_dec : EqDecision value.
Proof. solve_decision. Defined.

(** ToBoolean: the empty string, [null], [undefined] and [false] are falsy. *)
Definition truthy (v : value) : bool :=
  match v with
  | VUndefined | VNull => false
  | VBool b => b
  | VStr s => negb (String.eqb s "")
  end.

(** [a === b] on the values above. *)
Definition strict_eq (a b : value) : bool := bool_decide (a = b).

(** ToString, applied by [setAttribute] and [setItem] to their argument. *)
Definition ToString (v : value) : string :=
  match v with
  | VUndefined => "undefined"
  | VNull => "null"
  | VBool true => "true"
  | VBool false => "false"
  | VStr s => s
  end.

Inductive error : Type :=
| ReferenceError (name : string)  (* an unbound global identifier *)
| TypeError                       (* member access on null, call of a non-function *)
| SecurityError                   (* localStorage blocked by the user agent *)
| QuotaExceededError              (* setItem refused *)
| TooManyRerenders.               (* React's nested update limit *)

#[global] Instance error_eq_dec : EqDecision error.
Proof. solve_decision. Defined.

Inductive result (A : Type) : Type :=
| Ok (a : A)
| Throw (e : error).
Arguments Ok {A} a.
Arguments Throw {A} e.

End JS.
Import JS.

(** ** The execution context *)

Module Env.

(** What the code can observe of, and change in, its surroundings. *)
Record World : Type := mkWorld {
  has_window : bool;
    (* the globals window, document and localStorage are bound
       (false during a server pre-render) *)
  storage_access : bool;
    (* touching localStorage does not raise SecurityError *)
  storage_writable : bool;
    (* setItem does not raise QuotaExceededError *)
  items : gmap string string;
    (* the contents of localStorage *)
  matchMedia_available : bool;
    (* window.matchMedia is a function *)
  prefers_dark : bool;
    (* the system preference behind (prefers-color-scheme: dark) *)
  root : option (gmap string string)
    (* attributes of document.documentElement; None when there is no root *)
}.

Definition set_items (f : gmap string string → gmap string string) (w : World) : World :=
  mkWorld (has_window w) (storage_access w) (storage_writable w) (f (items w))
          (matchMedia_available w) (prefers_dark w) (root w).

Definition set_root (r : option (gmap string string)) (w : World) : World :=
  mkWorld (has_window w) (storage_access w) (storage_writable w) (items w)
          (matchMedia_available w) (prefers_dark w) r.

Definition set_prefers_dark (d : bool) (w : World) : World :=
  mkWorld (has_window w) (storage_access w) (storage_writable w) (items w)
          (matchMedia_available w) d (root w).

(** A browser in which every collaborator works. *)
Definition browser (store : gmap string string) (dark : bool)
    (attrs : gmap string string) : World :=
  mkWorld true true true store true dark (Some attrs).

(** A server pre-render pass: no window, no document, no storage. *)
Definition server : World :=
  mkWorld false false false ∅ false false None.

(** The attribute of the document root, if there is a root and it has one. *)
Definition root_attribute (name : string) (w : World) : option string :=
  attrs ← root w; attrs !! name.

(** The writes a piece of code performs, in program order. *)
Inductive Effect : Type :=
| SetTheme (v : value)                   (* setTheme(v): a queued state update *)
| SetAttribute (name : string) (v : string)
| SetItem (key : string) (v : string).

#[global] Instance Effect_eq_dec : EqDecision Effect.
Proof. solve_decision. Defined.

Record Outcome (A : Type) : Type := mkOutcome {
  res : result A;
  post : World;
  effects : list Effect
}.
Arguments mkOutcome {A} res post effects.
Arguments res {A} o.
Arguments post {A} o.
Arguments effects {A} o.

(** Code is a function of the world: it completes or throws, leaves a
    world behind, and has performed some writes. *)
Definition M (A : Type) : Type := World → Outcome A.

Definition ret {A} (a : A) : M A := λ w, mkOutcome (Ok a) w [].

Definition throw {A} (e : error) : M A := λ w, mkOutcome (Throw e) w [].

Definition bind {A B} (m : M A) (k : A → M B) : M B := λ w,
  match m w with
  | mkOutcome (Ok a) w1 l1 =>
      match k a w1 with
      | mkOutcome r w2 l2 => mkOutcome r w2 (l1 ++ l2)
      end
  | mkOutcome (Throw e) w1 l1 => mkOutcome (Throw e) w1 l1
  end.

Declare Scope js_scope.
Delimit Scope js_scope with js.
Bind Scope js_scope with M.
Notation "x ← y ; z" := (bind y (λ x, z)) (only parsing) : js_scope.
Notation "y ;; z" := (bind y (λ _, z)) (only parsing) : js_scope.
Open Scope js_scope.

(** [emit e] records a write. *)
Definition emit (e : Effect) : M unit := λ w, mkOutcome (Ok tt) w [e].

(** [listen m] also hands back what [m] wrote. *)
Definition listen {A} (m : M A) : M (A * list Effect) := λ w,
  match m w with
  | mkOutcome (Ok a) w1 l1 => mkOutcome (Ok (a, l1)) w1 l1
  | mkOutcome (Throw e) w1 l1 => mkOutcome (Throw e) w1 l1
  end.

(** [attempt m] runs [m] and turns a throw into a value. *)
Definition attempt {A} (m : M A) : M (result A) := λ w,
  match m w with
  | mkOutcome r w1 l1 => mkOutcome (Ok r) w1 l1
  end.

(** Reading a global identifier. *)
Definition global (name : string) : M unit := λ w,
  if has_window w then ret tt w else throw (ReferenceError name) w.

(** [typeof window !== 'undefined'] never throws. *)
Definition typeof_window_defined : M bool := λ w, ret (has_window w) w.

(** The store itself: reading a key yields its string or [null]. *)
Definition storage_get (key : string) : M value := λ w,
  if storage_access w
  then ret (match items w !! key with
            | Some s => VStr s
            | None => VNull
            end) w
  else throw SecurityError w.

(** [localStorage.getItem(key)] or [window.localStorage.getItem(key)]:
    [via] is the global the source names first. *)
Definition getItem (via key : string) : M value :=
  global via;; storage_get key.

(** Writing a key, which the user agent may refuse. *)
Definition storage_set (key : string) (v : string) : M unit := λ w,
  if storage_access w
  then if storage_writable w
       then mkOutcome (Ok tt) (set_items (<[key := v]>) w) [SetItem key v]
       else throw QuotaExceededError w
  else throw SecurityError w.

(** [localStorage.setItem(key, v)]. *)
Definition setItem (key : string) (v : value) : M unit :=
  global "localStorage";; storage_set key (ToString v).

Definition dark_query : string := "(prefers-color-scheme: dark)".

(** The media query list: only the dark-scheme feature is backed by the
    system preference; any other query does not match. *)
Definition media_matches (query : string) : M bool := λ w,
  if matchMedia_available w
  then ret (if decide (query = dark_query) then prefers_dark w else false) w
  else throw TypeError w.

(** [window.matchMedia(query).matches]. *)
Definition matchMedia_matches (query : string) : M bool :=
  global "window";; media_matches query.

(** Setting an attribute of the root element, when there is one. *)
Definition root_set (name : string) (v : string) : M unit := λ w,
  match root w with
  | Some attrs =>
      mkOutcome (Ok tt) (set_root (Some (<[name := v]> attrs)) w)
                [SetAttribute name v]
  | None => throw TypeError w
  end.

(** [document.documentElement.setAttribute(name, v)]. *)
Definition setAttribute (name : string) (v : value) : M unit :=
  global "document";; root_set name (ToString v).

(** [setTheme(v)] of a useState cell: the update is queued. *)
Definition setTheme (v : value) : M unit := emit (SetTheme v).

(** [a || b] with [b] evaluated only when [a] is falsy. *)
Definition or_else (a b : M value) : M value :=
  x ← a; if truthy x then ret x else b.

(** [a && b] with [b] evaluated only when [a] is true. *)
Definition and_then (a : M bool) (b : M value) : M value :=
  x ← a; if x then b else ret (VBool false).

End Env.
Import Env.

(** ** The bootstrap scripts *)

Module Bootstrap.

(** src/utils/themeInitializer.js, the body of the IIFE. *)
Definition themeInitializer : M unit :=
  theme ← or_else (getItem "localStorage" "theme")
                  (m ← matchMedia_matches "(prefers-color-scheme: dark)";
                   ret (if m : bool then VStr "dark" else VStr "light"));
  setAttribute "data-theme" theme.

(** src/utils/getThemeScript.js: the program that the returned template
    text denotes once the browser runs it. *)
Definition getThemeScript : M unit :=
  storedTheme ← getItem "localStorage" "theme";
  prefersDark ← matchMedia_matches "(prefers-color-scheme: dark)";
  let theme := if truthy storedTheme then storedTheme
               else if prefersDark : bool then VStr "dark" else VStr "light" in
  setAttribute "data-theme" theme.

End Bootstrap.

(** ** The part of React the providers rely on *)

Module React.

(** The dependency array of the provider's single useEffect. *)
Inductive deps : Type :=
| DepsNone      (* [] : the effect runs after the first render only *)
| DepsTheme.    (* [theme] : it runs again after every render that changed theme *)

(** A provider component, as far as its theme cell is concerned. The
    handler and the effect body are closures over the theme of the render
    that created them. *)
Record Provider : Type := mkProvider {
  initialState : M value;
  toggleTheme : value → M unit;
  effect : value → M unit;
  effect_deps : deps
}.

(** The state after the queued updates: the last [setTheme] wins. *)
Definition queued (cur : value) (log : list Effect) : value :=
  foldl (λ acc e, match e with SetTheme v => v | _ => acc end) cur log.

(** React gives up after this many nested updates. *)
Definition nested_update_limit : nat := 50.

(** A render caused by a state change to [theme], followed by its effect,
    which may queue further updates. *)
Fixpoint rerender (P : Provider) (fuel : nat) (theme : value) : M value :=
  match effect_deps P with
  | DepsNone => ret theme
  | DepsTheme =>
      match fuel with
      | O => throw TooManyRerenders
      | S fuel' =>
          r ← listen (effect P theme);
          let next := queued theme (snd r) in
          if strict_eq next theme then ret theme else rerender P fuel' next
      end
  end.

(** A queued value equal to the rendered one causes no render. *)
Definition settle (P : Provider) (theme next : value) : M value :=
  if strict_eq next theme then ret theme
  else rerender P nested_update_limit next.

(** First render on the server: the useState initialiser runs, effects
    do not. *)
Definition prerender (P : Provider) : M value := initialState P.

(** Mounting in the browser: first render, then the effect, then the
    renders its updates cause. The result is the theme the holder shows. *)
Definition mount (P : Provider) : M value :=
  theme ← initialState P;
  r ← listen (effect P theme);
  settle P theme (queued theme (snd r)).

(** One invocation of the toggle handler created by the render that
    showed [theme]. An exception of the handler is reported, not
    propagated, and the updates queued before it still apply. *)
Definition click (P : Provider) (theme : value) : M (value * result unit) :=
  r ← listen (attempt (toggleTheme P theme));
  theme' ← settle P theme (queued theme (snd r));
  ret (theme', fst r).

(** The holder's life: it mounts, then toggles any number of times, while
    the system preference may change under it. *)
Inductive reachable (P : Provider) (w0 : World) : value → World → Prop :=
| reach_mount theme :
    res (mount P w0) = Ok theme →
    reachable P w0 theme (post (mount P w0))
| reach_click theme w theme' r :
    reachable P w0 theme w →
    res (click P theme w) = Ok (theme', r) →
    reachable P w0 theme' (post (click P theme w))
| reach_system theme w d :
    reachable P w0 theme w →
    reachable P w0 theme (set_prefers_dark d w).

End React.
Import React.

(** ** The provider variants *)

Definition themes_light : value := VStr "light".
Definition themes_dark : value := VStr "dark".

(** src/context/ThemeContext.js *)
Module ThemeContext.

Definition getInitialTheme : M value :=
  storedTheme ← getItem "window" "theme";
  if truthy storedTheme then ret storedTheme
  else
    userPreferedScheme ← matchMedia_matches "(prefers-color-scheme: dark)";
    ret (if userPreferedScheme : bool then themes_dark else themes_light).

Definition toggleTheme (theme : value) : M unit :=
  let newTheme := if strict_eq theme themes_light then themes_dark else themes_light in
  setTheme newTheme;;
  setAttribute "data-theme" newTheme;;
  setTheme newTheme.

Definition useEffect (_ : value) : M unit :=
  b ← typeof_window_defined;
  if b : bool then
    initialTheme ← getInitialTheme;
    setTheme initialTheme;;
    setAttribute "data-theme" initialTheme;;
    setItem "theme" initialTheme
  else ret tt.

Definition ThemeProvider : Provider :=
  mkProvider (ret themes_light) toggleTheme useEffect DepsNone.

End ThemeContext.

(** src/unnamed/part_001 *)
Module Part001.

Definition useState_init : M value :=
  b ← typeof_window_defined;
  if b : bool then
    or_else (getItem "localStorage" "theme")
            (m ← matchMedia_matches "(prefers-color-scheme: dark)";
             ret (if m : bool then themes_dark else themes_light))
  else ret themes_light.

Definition toggleTheme (theme : value) : M unit :=
  let newTheme := if strict_eq theme themes_light then themes_dark else themes_light in
  setTheme newTheme;;
  setAttribute "data-theme" newTheme;;
  setItem "theme" newTheme.

Definition useEffect (theme : value) : M unit :=
  setAttribute "data-theme" theme.

Definition ThemeProvider : Provider :=
  mkProvider useState_init toggleTheme useEffect DepsTheme.

End Part001.

(** src/unnamed/part_002; the provider of src/unnamed/part_003 is the same
    text. *)
Module Part002.

Definition useState_init : M value :=
  or_else (and_then typeof_window_defined (getItem "localStorage" "theme"))
          (m ← matchMedia_matches "(prefers-color-scheme: dark)";
           ret (if m : bool then themes_dark else themes_light)).

Definition toggleTheme (theme : value) : M unit :=
  let newTheme := if strict_eq theme themes_light then themes_dark else themes_light in
  setTheme newTheme;;
  setAttribute "data-theme" newTheme;;
  setItem "theme" newTheme.

Definition useEffect (theme : value) : M unit :=
  setAttribute "data-theme" theme.

Definition ThemeProvider : Provider :=
  mkProvider useState_init toggleTheme useEffect DepsTheme.

End Part002.

(** src/unnamed/part_003, [getThemeScript]: the program between the
    script tags of the returned text. *)
Module Part003.

Definition getThemeScript : M unit :=
  storedTheme ← getItem "localStorage" "theme";
  prefersDark ← matchMedia_matches "(prefers-color-scheme: dark)";
  let theme := if truthy storedTheme then storedTheme
               else if prefersDark : bool then VStr "dark" else VStr "light" in
  setAttribute "data-theme" theme.

End Part003.

(** ** What the claims speak about *)

Definition variants : list Provider :=
  [ThemeContext.ThemeProvider; Part001.ThemeProvider; Part002.ThemeProvider].

(** The theme the system preference alone selects. *)
Definition system_theme (dark : bool) : string :=
  if dark then "dark" else "light".

(** What the sources compute from the stored string and the system
    preference: any non-empty stored string wins. *)
Definition resolved_by_truthiness (stored : option string) (dark : bool) : string :=
  match stored with
  | Some s => if String.eqb s "" then system_theme dark else s
  | None => system_theme dark
  end.

(** The same, read off a world. *)
Definition resolved (w : World) : string :=
  resolved_by_truthiness (items w !! "theme") (prefers_dark w).

(** The resolution order in the words of the specification: the persisted
    value if it is one of the two valid values, else the system preference. *)
Definition valid_theme (s : string) : bool :=
  bool_decide (s = "light") || bool_decide (s = "dark").

Definition specified_resolution (persisted : option string) (dark : bool) : string :=
  match persisted with
  | Some s => if valid_theme s then s else system_theme dark
  | None => system_theme dark
  end.

(** The collaborators that resolution reads are all there. *)
Definition readable (w : World) : bool :=
  has_window w && storage_access w && matchMedia_available w.

(** Code that lets no exception out. *)
Definition swallows {A} (m : M A) (w : World) : Prop :=
  ∀ e, res (m w) ≠ Throw e.

(** The error a bootstrap script raises when it cannot do its work. *)
Definition bootstrap_error (w : World) : error :=
  if has_window w
  then if storage_access w then TypeError else SecurityError
  else ReferenceError "localStorage".

(** A working browser whose store holds a string that is no theme, and
    whose system preference is light. *)
Definition tampered_browser : World :=
  browser {["theme" := "blue"]} false ∅.

(** A browser that refuses access to localStorage. *)
Definition blocked_storage_browser : World :=
  mkWorld true false false ∅ true true (Some ∅).

(** A browser without window.matchMedia whose store holds a theme. *)
Definition no_matchMedia_browser : World :=
  mkWorld true true true {["theme" := "dark"]} false false (Some ∅).

(** A working browser with "dark" persisted and a light system preference. *)
Definition dark_browser : World :=
  browser {["theme" := "dark"]} false ∅.

(** A working browser with nothing persisted and a dark system preference. *)
Definition fresh_browser : World :=
  browser ∅ true ∅.

(** The expression every [toggleTheme] binds to [newTheme]. *)
Definition opposite (theme : value) : value :=
  if strict_eq theme themes_light then themes_dark else themes_light.

(** The providers whose effect is the bare stamp and whose handler also
    writes the store: part_001 and part_002. *)
Definition stamping (P : Provider) : Prop :=
  toggleTheme P = Part002.toggleTheme
  ∧ effect P = (λ t, setAttribute "data-theme" t)
  ∧ effect_deps P = DepsTheme.

(** Two toggles, the second from the render that followed the first. *)
Definition toggle_twice (P : Provider) (theme : value) : M value :=
  c1 ← click P theme;
  c2 ← click P (fst c1);
  ret (fst c2).

(** ** Further code of the repository *)

(** src/unnamed/part_000: the [useTheme] hook. *)
Module Part000.

(** The body of the hook's effect. The source writes its media query
    without the parentheses. *)
Definition useEffect : M unit :=
  currentTheme ← getItem "localStorage" "theme";
  if truthy currentTheme then setTheme currentTheme
  else
    isPrefersDarkMode ← matchMedia_matches "prefers-color-scheme: dark";
    if isPrefersDarkMode : bool then setTheme (VStr "dark")
    else setTheme (VStr "light").

(** [useState('light')], then the effect with the empty dependency array:
    the theme the hook hands out once it has mounted. *)
Definition useTheme : M value :=
  r ← listen useEffect;
  ret (queued (VStr "light") (snd r)).

End Part000.

(** src/README.md, section 5: the script the documentation shows as the
    content of react-next-theme-script.js. *)
Module Readme.

Definition themeScript : M unit :=
  storedTheme ← getItem "localStorage" "theme";
  if truthy storedTheme then setAttribute "data-theme" storedTheme
  else
    prefersDark ← matchMedia_matches "(prefers-color-scheme: dark)";
    setAttribute "data-theme" (if prefersDark : bool then VStr "dark" else VStr "light").

End Readme.

(** A caller that invokes the handler of one render twice in one event:
    both calls close over the same [theme]. *)
Definition click_twice_same_render (P : Provider) (theme : value)
    : M (value * result unit) :=
  r ← listen (attempt (toggleTheme P theme;; toggleTheme P theme));
  theme' ← settle P theme (queued theme (snd r));
  ret (theme', fst r).

(** ** The install step *)

(** The part of Node's [fs] that postinstall.js uses. *)
Module Node.

Inductive node : Type :=
| File (content : string)
| Dir.

#[global] Instance node_eq_dec : EqDecision node.
Proof. solve_decision. Defined.

Inductive errno : Type :=
| ENOENT | ENOTDIR | EISDIR | EEXIST | EACCES.

#[global] Instance errno_eq_dec : EqDecision errno.
Proof. solve_decision. Defined.

(** A path is the list of its segments below the root; [path.join] of an
    absolute path and plain segments appends them. *)
Record Disk : Type := mkDisk {
  nodes : gmap (list string) node;
    (* what is at each path *)
  readonly : gset (list string)
    (* paths the process may neither create nor overwrite *)
}.

Inductive fs_result (A : Type) : Type :=
| Done (a : A)
| Fail (e : errno).
Arguments Done {A} a.
Arguments Fail {A} e.

Record Run (A : Type) : Type := mkRun {
  outcome : fs_result A;
  disk : Disk;
  console : list string
}.
Arguments mkRun {A} outcome disk console.
Arguments outcome {A} r.
Arguments disk {A} r.
Arguments console {A} r.

Definition F (A : Type) : Type := Disk → Run A.

Definition fret {A} (a : A) : F A := λ d, mkRun (Done a) d [].

Definition fail {A} (e : errno) : F A := λ d, mkRun (Fail e) d [].

Definition fbind {A B} (m : F A) (k : A → F B) : F B := λ d,
  match m d with
  | mkRun (Done a) d1 l1 =>
      match k a d1 with
      | mkRun r d2 l2 => mkRun r d2 (l1 ++ l2)
      end
  | mkRun (Fail e) d1 l1 => mkRun (Fail e) d1 l1
  end.

Declare Scope fs_scope.
Delimit Scope fs_scope with fs.
Bind Scope fs_scope with F.
Notation "x ← y ; z" := (fbind y (λ x, z)) (only parsing) : fs_scope.
Notation "y ;; z" := (fbind y (λ _, z)) (only parsing) : fs_scope.

(** What is at a path; the root is a directory. *)
Definition stat (p : list string) (d : Disk) : option node :=
  match p with
  | [] => Some Dir
  | _ => nodes d !! p
  end.

Definition put (p : list string) (n : node) (d : Disk) : Disk :=
  mkDisk (<[p := n]> (nodes d)) (readonly d).

(** [fs.existsSync(p)]. *)
Definition existsSync (p : list string) : F bool := λ d,
  fret (bool_decide (is_Some (stat p d))) d.

(** [fs.mkdirSync(prefix/rest, { recursive: true })], walking down from
    [prefix]: directories on the way are kept, missing ones are created,
    and what it created stays when a later segment fails. *)
Fixpoint mkdir_from (prefix rest : list string) : F unit := λ d,
  match rest with
  | [] => fret tt d
  | seg :: rest' =>
      let cur := (prefix ++ [seg])%list in
      match nodes d !! cur with
      | Some Dir => mkdir_from cur rest' d
      | Some (File _) =>
          fail (match rest' with [] => EEXIST | _ => ENOTDIR end) d
      | None =>
          if decide (cur ∈ readonly d) then fail EACCES d
          else mkdir_from cur rest' (put cur Dir d)
      end
  end.

Definition mkdirSync_recursive (p : list string) : F unit := mkdir_from [] p.

Definition remove (p : list string) (d : Disk) : Disk :=
  mkDisk (delete p (nodes d)) (readonly d).

(** Why a path with nothing at it cannot be opened, walking down from
    [prefix]: a regular file on the way gives ENOTDIR, a missing segment
    ENOENT. *)
Fixpoint missing_from (prefix rest : list string) (d : Disk) : errno :=
  match rest with
  | [] => ENOENT
  | seg :: rest' =>
      let cur := (prefix ++ [seg])%list in
      match nodes d !! cur with
      | Some Dir => missing_from cur rest' d
      | Some (File _) => match rest' with [] => ENOENT | _ => ENOTDIR end
      | None => ENOENT
      end
  end.

Definition missing_error (p : list string) (d : Disk) : errno :=
  missing_from [] p d.

(** [fs.copyFileSync(src, dest)] with the default mode. The source is
    opened for reading, then the destination for writing (created when it
    is not there), then the content is copied over the truncated
    destination. A directory can be opened as a source, but the copy then
    fails with EISDIR, and a destination that was opened is unlinked when
    the copy fails. *)
Definition copyFileSync (src dest : list string) : F unit := λ d,
  match stat src d with
  | None => fail (missing_error src d) d
  | Some source =>
      match stat (removelast dest) d with
      | None => fail (missing_error (removelast dest) d) d
      | Some (File _) => fail ENOTDIR d
      | Some Dir =>
          match stat dest d with
          | Some Dir => fail EISDIR d
          | _ =>
              if decide (dest ∈ readonly d) then fail EACCES d
              else
                match source with
                | File content => mkRun (Done tt) (put dest (File content) d) []
                | Dir => mkRun (Fail EISDIR) (remove dest d) []
                end
          end
      end
  end.

(** [console.log(msg)]. *)
Definition console_log (msg : string) : F unit := λ d, mkRun (Done tt) d [msg].

End Node.

(** src/postinstall.js and src/unnamed/part_006 (the same steps, as an ES
    module and as a CommonJS module). [dirname] is the directory of the
    package, [cwd] the directory npm runs the step in. *)
Module Postinstall.
Import Node.
#[local] Open Scope fs_scope.

Definition scriptSrcPath (dirname : list string) : list string :=
  (dirname ++ ["scripts"; "themeScript.js"])%list.

Definition publicDir (cwd : list string) : list string :=
  (cwd ++ ["public"])%list.

Definition publicScriptPath (cwd : list string) : list string :=
  (publicDir cwd ++ ["react-next-theme-script.js"])%list.

Definition postinstall (dirname cwd : list string) : F unit :=
  (e ← existsSync (publicDir cwd);
   (if negb e then mkdirSync_recursive (publicDir cwd) else fret tt);;
   copyFileSync (scriptSrcPath dirname) (publicScriptPath cwd);;
   console_log "themeScript.js copied to public/react-next-theme-script.js")%fs.

End Postinstall.

(** [p] and every directory above it exist on the disk. *)
Definition existing_directory (d : Node.Disk) (p : list string) : Prop :=
  ∀ k : nat, (0 < k)%nat → (k ≤ length p)%nat →
       Node.nodes d !! take k p = Some Node.Dir.

(** The line the install step prints when it is done. *)
Definition install_message : string :=
  "themeScript.js copied to public/react-next-theme-script.js".

(** The disk once the public directory is there: created when nothing was
    at its path, left alone otherwise. *)
Definition with_public (cwd : list string) (d : Node.Disk) : Node.Disk :=
  match Node.nodes d !! Postinstall.publicDir cwd with
  | None => Node.put (Postinstall.publicDir cwd) Node.Dir d
  | Some _ => d
  end.

(** The directory step can be taken: public is a directory already, or
    nothing is at its path, it may be created and the working directory
    exists. *)
Definition public_ready (cwd : list string) (d : Node.Disk) : Prop :=
  Node.nodes d !! Postinstall.publicDir cwd = Some Node.Dir
  ∨ (Node.nodes d !! Postinstall.publicDir cwd = None
     ∧ (Postinstall.publicDir cwd ∉ Node.readonly d)
     ∧ existing_directory d cwd).

(** A project directory without public, next to the installed package. *)
Definition fresh_project : Node.Disk :=
  Node.mkDisk
    {[ ["pkg"] := Node.Dir;
       ["pkg"; "scripts"] := Node.Dir;
       ["pkg"; "scripts"; "themeScript.js"] := (Node.File "(function() {})();");
       ["app"] := Node.Dir ]}
    ∅.

(** A project that has the script installed already, next to a package
    in which scripts/themeScript.js is a directory. *)
Definition installed_over_directory : Node.Disk :=
  Node.mkDisk
    {[ ["pkg"] := Node.Dir;
       ["pkg"; "scripts"] := Node.Dir;
       ["pkg"; "scripts"; "themeScript.js"] := Node.Dir;
       ["app"] := Node.Dir;
       ["app"; "public"] := Node.Dir;
       ["app"; "public"; "react-next-theme-script.js"] := (Node.File "old") ]}
    ∅.

(** The first render of a provider in the browser: the initialiser of
    useState runs and the theme it returns is what the holder shows until
    the effect has run. *)
Definition first_render (P : Provider) : M value := initialState P.

(** The moments of a holder's life at which its theme can be read: when
    the first render is committed, the effect still to come, and whenever
    it has settled after the mount or a toggle. *)
Inductive moment (P : Provider) (w0 : World) : value → World → Prop :=
| moment_first_render theme :
    res (first_render P w0) = Ok theme →
    moment P w0 theme (post (first_render P w0))
| moment_settled theme w :
    reachable P w0 theme w →
    moment P w0 theme w.

(** A working browser with nothing persisted and a dark system
    preference, after the bootstrap script has stamped it. *)
Definition stamped_dark_browser : World :=
  browser ∅ true {["data-theme" := "dark"]}.

(** The error with which a handler that writes the store fails. *)
Definition store_write_result (w : World) : result unit :=
  if storage_access w
  then if storage_writable w then Ok tt else Throw QuotaExceededError
  else Throw SecurityError.

(** ** Running the code *)

Create HintDb js discriminated.
#[local] Hint Unfold
  Bootstrap.themeInitializer Bootstrap.getThemeScript Part003.getThemeScript
  ThemeContext.getInitialTheme ThemeContext.toggleTheme ThemeContext.useEffect
  ThemeContext.ThemeProvider
  Part001.useState_init Part001.toggleTheme Part001.useEffect Part001.ThemeProvider
  Part002.useState_init Part002.toggleTheme Part002.useEffect Part002.ThemeProvider
  or_else and_then getItem setItem setAttribute matchMedia_matches setTheme
  storage_get storage_set root_set global typeof_window_defined
  emit listen attempt bind ret throw
  mount click prerender toggle_twice : js.

Ltac js_unfold := autounfold with js in *.
Ltac js_step :=
  cbn [res post effects has_window storage_access storage_writable items
       matchMedia_available prefers_dark root set_items set_root
       set_prefers_dark fst snd app initialState toggleTheme effect
       effect_deps queued foldl truthy negb] in *.

Lemma media_matches_dark (w : World) :
  media_matches "(prefers-color-scheme: dark)" w =
    mkOutcome (if matchMedia_available w then Ok (prefers_dark w) else Throw TypeError)
              w [].
Proof. unfold media_matches. destruct (matchMedia_available w); reflexivity. Qed.

Ltac js_run := js_unfold; js_step; rewrite ?media_matches_dark in *; js_step.

Lemma resolved_by_truthiness_stored (s : string) (dark : bool) :
  s ≠ "" → resolved_by_truthiness (Some s) dark = s.
Proof.
  intros Hs. unfold resolved_by_truthiness.
  destruct (String.eqb_spec s ""); [contradiction | reflexivity].
Qed.

Lemma resolved_by_truthiness_nonempty (stored : option string) (dark : bool) :
  resolved_by_truthiness stored dark ≠ "".
Proof.
  unfold resolved_by_truthiness, system_theme.
  destruct stored as [s|]; [destruct (String.eqb_spec s "")|];
    try assumption; destruct dark; discriminate.
Qed.

Lemma getThemeScript_run (w : World) (attrs : gmap string string) :
  readable w = true → root w = Some attrs →
  Bootstrap.getThemeScript w =
    mkOutcome (Ok tt)
      (set_root (Some (<["data-theme" := resolved w]> attrs)) w)
      [SetAttribute "data-theme" (resolved w)].
Proof.
  destruct w as [hw sa sw it mm pd rt]; unfold readable, resolved; simpl.
  intros H ->. destruct hw, sa, mm; try discriminate; clear H.
  js_run. unfold resolved_by_truthiness, system_theme.
  destruct (it !! "theme") as [s|]; js_step;
    [destruct (String.eqb s "")|]; destruct pd; reflexivity.
Qed.

Lemma themeInitializer_run (w : World) (attrs : gmap string string) :
  readable w = true → root w = Some attrs →
  Bootstrap.themeInitializer w =
    mkOutcome (Ok tt)
      (set_root (Some (<["data-theme" := resolved w]> attrs)) w)
      [SetAttribute "data-theme" (resolved w)].
Proof.
  destruct w as [hw sa sw it mm pd rt]; unfold readable, resolved; simpl.
  intros H ->. destruct hw, sa, mm; try discriminate; clear H.
  js_run. unfold resolved_by_truthiness, system_theme.
  destruct (it !! "theme") as [s|]; js_step;
    [destruct (String.eqb s "")|]; js_run; destruct pd; reflexivity.
Qed.

Lemma Part002_init_run (w : World) :
  readable w = true →
  Part002.useState_init w = mkOutcome (Ok (VStr (resolved w))) w [].
Proof.
  destruct w as [hw sa sw it mm pd rt]; unfold readable, resolved; simpl.
  intros H. destruct hw, sa, mm; try discriminate; clear H.
  js_run. unfold resolved_by_truthiness, system_theme.
  destruct (it !! "theme") as [s|]; js_step;
    [destruct (String.eqb s "")|]; js_run; destruct pd; reflexivity.
Qed.

Lemma Part001_init_run (w : World) :
  readable w = true →
  Part001.useState_init w = mkOutcome (Ok (VStr (resolved w))) w [].
Proof.
  destruct w as [hw sa sw it mm pd rt]; unfold readable, resolved; simpl.
  intros H. destruct hw, sa, mm; try discriminate; clear H.
  js_run. unfold resolved_by_truthiness, system_theme.
  destruct (it !! "theme") as [s|]; js_step;
    [destruct (String.eqb s "")|]; js_run; destruct pd; reflexivity.
Qed.

Lemma getInitialTheme_run (w : World) :
  readable w = true →
  ThemeContext.getInitialTheme w = mkOutcome (Ok (VStr (resolved w))) w [].
Proof.
  destruct w as [hw sa sw it mm pd rt]; unfold readable, resolved; simpl.
  intros H. destruct hw, sa, mm; try discriminate; clear H.
  js_run. unfold resolved_by_truthiness, system_theme.
  destruct (it !! "theme") as [s|]; js_step;
    [destruct (String.eqb s "")|]; js_run; destruct pd; reflexivity.
Qed.

(** ** Resolution *)

(** C1 (as amended): with the collaborators readable, the script stamps and
    the holder's initialiser returns one and the same theme; for a persisted
    value that is absent, "light" or "dark" it is the specified resolution,
    and a non-empty persisted string that is neither is not treated as
    absent but returned as it is. *)
Theorem resolution_keeps_any_stored_string (w : World) (attrs : gmap string string) :
  readable w = true → root w = Some attrs →
  ∃ r : string,
    res (Bootstrap.getThemeScript w) = Ok tt
    ∧ root_attribute "data-theme" (post (Bootstrap.getThemeScript w)) = Some r
    ∧ res (Part002.useState_init w) = Ok (VStr r)
    ∧ (items w !! "theme" = None ∨ items w !! "theme" = Some "light"
       ∨ items w !! "theme" = Some "dark" →
       r = specified_resolution (items w !! "theme") (prefers_dark w))
    ∧ (∀ s, items w !! "theme" = Some s → valid_theme s = false → s ≠ "" → r = s).
Proof.
  intros Hr Hroot. exists (resolved w).
  rewrite (getThemeScript_run w attrs Hr Hroot), (Part002_init_run w Hr).
  unfold root_attribute; js_step.
  repeat split.
  - apply lookup_insert_eq.
  - unfold resolved. intros [-> | [-> | ->]]; reflexivity.
  - unfold resolved. intros s -> _ Hs. by apply resolved_by_truthiness_stored.
Qed.

Lemma resolution_keeps_any_stored_string_witness :
  ∃ r : string,
    res (Bootstrap.getThemeScript tampered_browser) = Ok tt
    ∧ root_attribute "data-theme" (post (Bootstrap.getThemeScript tampered_browser)) = Some r
    ∧ res (Part002.useState_init tampered_browser) = Ok (VStr r)
    ∧ (items tampered_browser !! "theme" = None
       ∨ items tampered_browser !! "theme" = Some "light"
       ∨ items tampered_browser !! "theme" = Some "dark" →
       r = specified_resolution (items tampered_browser !! "theme")
                                (prefers_dark tampered_browser))
    ∧ (∀ s, items tampered_browser !! "theme" = Some s →
            valid_theme s = false → s ≠ "" → r = s).
Proof.
  apply (resolution_keeps_any_stored_string tampered_browser ∅); reflexivity.
Defined.

(** C1 as stated fails: with "blue" persisted and a light system preference
    the specified resolution is "light", yet neither the initialiser nor the
    script produces it. *)
Lemma resolution_invalid_string_counterexample :
  specified_resolution (items tampered_browser !! "theme")
                       (prefers_dark tampered_browser) = "light"
  ∧ res (Part002.useState_init tampered_browser) = Ok (VStr "blue")
  ∧ root_attribute "data-theme" (post (Bootstrap.getThemeScript tampered_browser))
    = Some "blue"
  ∧ res (Part002.useState_init tampered_browser)
    ≠ Ok (VStr (specified_resolution (items tampered_browser !! "theme")
                                     (prefers_dark tampered_browser))).
Proof. repeat split; try reflexivity. vm_compute. discriminate. Qed.

(** C9: the stored string is selected by truthiness. An empty stored
    string resolves exactly as an absent one, to the system preference; any
    non-empty stored string, valid or not, is the resolved theme and is
    stamped onto the document root. *)
Theorem stored_string_selected_by_truthiness (w : World) (attrs : gmap string string) :
  readable w = true → root w = Some attrs →
  ∃ r : string,
    res (Bootstrap.getThemeScript w) = Ok tt
    ∧ root_attribute "data-theme" (post (Bootstrap.getThemeScript w)) = Some r
    ∧ root_attribute "data-theme" (post (Bootstrap.themeInitializer w)) = Some r
    ∧ res (Part002.useState_init w) = Ok (VStr r)
    ∧ (items w !! "theme" = Some "" ∨ items w !! "theme" = None →
       r = system_theme (prefers_dark w))
    ∧ (∀ s, items w !! "theme" = Some s → s ≠ "" → r = s).
Proof.
  intros Hr Hroot. exists (resolved w).
  rewrite (getThemeScript_run w attrs Hr Hroot), (themeInitializer_run w attrs Hr Hroot),
    (Part002_init_run w Hr).
  unfold root_attribute; js_step.
  repeat split; try apply lookup_insert_eq.
  - unfold resolved. intros [-> | ->]; reflexivity.
  - unfold resolved. intros s -> Hs. by apply resolved_by_truthiness_stored.
Qed.

Lemma stored_string_selected_by_truthiness_witness :
  ∃ r : string,
    res (Bootstrap.getThemeScript (browser {["theme" := ""]} true ∅)) = Ok tt
    ∧ root_attribute "data-theme"
        (post (Bootstrap.getThemeScript (browser {["theme" := ""]} true ∅))) = Some r
    ∧ root_attribute "data-theme"
        (post (Bootstrap.themeInitializer (browser {["theme" := ""]} true ∅))) = Some r
    ∧ res (Part002.useState_init (browser {["theme" := ""]} true ∅)) = Ok (VStr r)
    ∧ (items (browser {["theme" := ""]} true ∅) !! "theme" = Some ""
       ∨ items (browser {["theme" := ""]} true ∅) !! "theme" = None →
       r = system_theme (prefers_dark (browser {["theme" := ""]} true ∅)))
    ∧ (∀ s, items (browser {["theme" := ""]} true ∅) !! "theme" = Some s →
            s ≠ "" → r = s).
Proof.
  apply (stored_string_selected_by_truthiness (browser {["theme" := ""]} true ∅) ∅);
    reflexivity.
Defined.

(** ** The bootstrap scripts *)

Lemma bootstrap_failure (w : World) :
  has_window w = false ∨ storage_access w = false ∨ root w = None →
  Bootstrap.themeInitializer w = mkOutcome (Throw (bootstrap_error w)) w []
  ∧ Bootstrap.getThemeScript w = mkOutcome (Throw (bootstrap_error w)) w [].
Proof.
  destruct w as [hw sa sw it mm pd rt]; unfold bootstrap_error; simpl.
  intros H.
  destruct hw; [destruct sa; [destruct rt as [attrs|]|]|];
    try (exfalso; destruct H as [H | [H | H]]; discriminate);
    js_run; try (split; reflexivity).
  destruct (it !! "theme") as [s|]; js_step;
    [destruct (String.eqb s "")|]; js_run; destruct mm; js_run; split; reflexivity.
Qed.

(** C4 (as amended): the bootstrap scripts have no handler. When the
    globals are unbound, the store refuses access or the document has no
    root, the exception reaches the caller, nothing has been written and
    the world is as it was; resolution does not fall through to the system
    preference. *)
Theorem bootstrap_propagates_failure (w : World) :
  has_window w = false ∨ storage_access w = false ∨ root w = None →
  (res (Bootstrap.themeInitializer w) = Throw (bootstrap_error w)
   ∧ post (Bootstrap.themeInitializer w) = w
   ∧ effects (Bootstrap.themeInitializer w) = [])
  ∧ (res (Bootstrap.getThemeScript w) = Throw (bootstrap_error w)
     ∧ post (Bootstrap.getThemeScript w) = w
     ∧ effects (Bootstrap.getThemeScript w) = []).
Proof.
  intros H. destruct (bootstrap_failure w H) as [-> ->]. repeat split.
Qed.

Lemma bootstrap_propagates_failure_witness :
  (res (Bootstrap.themeInitializer blocked_storage_browser)
     = Throw (bootstrap_error blocked_storage_browser)
   ∧ post (Bootstrap.themeInitializer blocked_storage_browser) = blocked_storage_browser
   ∧ effects (Bootstrap.themeInitializer blocked_storage_browser) = [])
  ∧ (res (Bootstrap.getThemeScript blocked_storage_browser)
       = Throw (bootstrap_error blocked_storage_browser)
     ∧ post (Bootstrap.getThemeScript blocked_storage_browser) = blocked_storage_browser
     ∧ effects (Bootstrap.getThemeScript blocked_storage_browser) = []).
Proof.
  apply (bootstrap_propagates_failure blocked_storage_browser).
  right; left; reflexivity.
Defined.

(** C4 as stated fails: with the store blocked the script does not
    swallow the exception, and the attribute the system preference would
    select is not stamped. *)
Lemma bootstrap_swallows_counterexample :
  ¬ swallows Bootstrap.themeInitializer blocked_storage_browser
  ∧ root_attribute "data-theme"
      (post (Bootstrap.themeInitializer blocked_storage_browser)) = None.
Proof.
  split; [|reflexivity].
  intros H. apply (H SecurityError). reflexivity.
Qed.

(** C7: whenever the system preference can be read, the standalone script
    and the script text of getThemeScript (in both of its versions) have
    the same outcome: the same result, the same world with the same root
    attribute, the same writes. *)
Theorem bootstrap_packagings_agree (w : World) :
  matchMedia_available w = true →
  Bootstrap.themeInitializer w = Bootstrap.getThemeScript w
  ∧ Part003.getThemeScript w = Bootstrap.getThemeScript w.
Proof.
  destruct w as [hw sa sw it mm pd rt]; simpl. intros ->.
  split; [|reflexivity].
  destruct hw, sa, rt as [attrs|]; js_run; try reflexivity;
    (destruct (it !! "theme") as [s|]; js_step;
     [destruct (String.eqb s "")|]; js_run; destruct pd; reflexivity).
Qed.

Lemma bootstrap_packagings_agree_witness :
  Bootstrap.themeInitializer tampered_browser = Bootstrap.getThemeScript tampered_browser
  ∧ Part003.getThemeScript tampered_browser = Bootstrap.getThemeScript tampered_browser.
Proof. apply (bootstrap_packagings_agree tampered_browser). reflexivity. Defined.

(** Outside the domain of C7: without window.matchMedia the standalone
    script, which asks for the system preference only when nothing truthy is
    stored, still stamps the stored theme, while the script text fails. *)
Example packagings_without_matchMedia :
  res (Bootstrap.themeInitializer no_matchMedia_browser) = Ok tt
  ∧ res (Bootstrap.getThemeScript no_matchMedia_browser) = Throw TypeError.
Proof. split; reflexivity. Qed.

(** C8: the bootstrap resolver is idempotent. Run again on the world the
    first run left, it has the same result, performs the same write and
    leaves that world as it is, root attribute included. *)
Theorem themeInitializer_idempotent (w : World) :
  res (Bootstrap.themeInitializer (post (Bootstrap.themeInitializer w)))
    = res (Bootstrap.themeInitializer w)
  ∧ post (Bootstrap.themeInitializer (post (Bootstrap.themeInitializer w)))
    = post (Bootstrap.themeInitializer w)
  ∧ effects (Bootstrap.themeInitializer (post (Bootstrap.themeInitializer w)))
    = effects (Bootstrap.themeInitializer w).
Proof.
  destruct (decide (has_window w = false ∨ storage_access w = false ∨ root w = None))
    as [Hbad | Hok].
  - destruct (bootstrap_failure w Hbad) as [E _]. rewrite E; js_step. rewrite E.
    repeat split.
  - destruct w as [hw sa sw it mm pd rt]; simpl in *.
    destruct hw; [|exfalso; apply Hok; by left].
    destruct sa; [|exfalso; apply Hok; right; by left].
    destruct rt as [attrs|]; [|exfalso; apply Hok; right; by right].
    clear Hok. js_run.
    destruct (it !! "theme") as [s|] eqn:E; js_step;
      [destruct (String.eqb s "") eqn:Es|]; destruct mm;
      do 3 (js_run; rewrite ?E, ?Es); js_step;
      rewrite ?insert_insert_eq; repeat split.
Qed.

(** ** The runtime holder *)

Lemma opposite_neq (theme : value) : strict_eq (opposite theme) theme = false.
Proof.
  unfold opposite, strict_eq.
  destruct (bool_decide (theme = themes_light)) eqn:E.
  - apply bool_decide_eq_true in E. subst. reflexivity.
  - apply bool_decide_eq_false in E. apply bool_decide_eq_false. congruence.
Qed.

Lemma opposite_involutive (theme : value) :
  theme = themes_light ∨ theme = themes_dark → opposite (opposite theme) = theme.
Proof. intros [-> | ->]; reflexivity. Qed.

Lemma settle_DepsNone (P : Provider) (theme next : value) (w : World) :
  effect_deps P = DepsNone → settle P theme next w = mkOutcome (Ok next) w [].
Proof.
  intros HP. unfold settle, strict_eq.
  destruct (bool_decide (next = theme)) eqn:E.
  - apply bool_decide_eq_true in E. subst. reflexivity.
  - unfold nested_update_limit. simpl. rewrite HP. reflexivity.
Qed.

Lemma settle_stamp (P : Provider) (theme next : value) (w : World)
    (attrs : gmap string string) :
  effect_deps P = DepsTheme →
  effect P = (λ t, setAttribute "data-theme" t) →
  has_window w = true → root w = Some attrs →
  strict_eq next theme = false →
  settle P theme next w =
    mkOutcome (Ok next)
      (set_root (Some (<["data-theme" := ToString next]> attrs)) w)
      [SetAttribute "data-theme" (ToString next)].
Proof.
  intros HP HE Hw Hr Hne. unfold settle. rewrite Hne.
  unfold nested_update_limit. simpl. rewrite HP, HE.
  destruct w as [hw sa sw it mm pd rt]; simpl in *; subst.
  js_run. replace (strict_eq next next) with true; [reflexivity|].
  symmetry. by apply bool_decide_eq_true.
Qed.

Lemma click_run (P : Provider) (theme : value) (w w1 : World)
    (r : result unit) (l1 : list Effect) :
  toggleTheme P theme w = mkOutcome r w1 l1 →
  click P theme w =
    match settle P theme (queued theme l1) w1 with
    | mkOutcome (Ok t) w2 l2 => mkOutcome (Ok (t, r)) w2 (l1 ++ l2 ++ [])
    | mkOutcome (Throw e) w2 l2 => mkOutcome (Throw e) w2 (l1 ++ l2)
    end.
Proof.
  intros H. unfold click, bind, listen, attempt, ret. rewrite H. simpl.
  destruct (settle P theme (queued theme l1) w1) as [[t|e] w2 l2]; reflexivity.
Qed.

Lemma mount_run (P : Provider) (w w1 w2 : World) (t : value)
    (r2 : result unit) (l1 l2 : list Effect) :
  initialState P w = mkOutcome (Ok t) w1 l1 →
  effect P t w1 = mkOutcome r2 w2 l2 →
  mount P w =
    match r2 with
    | Ok _ =>
        match settle P t (queued t l2) w2 with
        | mkOutcome r w3 l3 => mkOutcome r w3 (l1 ++ l2 ++ l3)
        end
    | Throw e => mkOutcome (Throw e) w2 (l1 ++ l2)
    end.
Proof.
  intros H1 H2. unfold mount, bind, listen. rewrite H1, H2.
  destruct r2 as [[]|e]; simpl; [|reflexivity].
  destruct (settle P t (queued t l2) w2) as [r w3 l3]; reflexivity.
Qed.

Lemma ThemeContext_toggleTheme_run (theme : value) (w : World) (attrs : gmap string string) :
  has_window w = true → root w = Some attrs →
  ThemeContext.toggleTheme theme w =
    mkOutcome (Ok tt)
      (set_root (Some (<["data-theme" := ToString (opposite theme)]> attrs)) w)
      [SetTheme (opposite theme); SetAttribute "data-theme" (ToString (opposite theme));
       SetTheme (opposite theme)].
Proof.
  destruct w as [hw sa sw it mm pd rt]; simpl. intros -> ->.
  unfold ThemeContext.toggleTheme. fold (opposite theme). js_run. reflexivity.
Qed.

Lemma ThemeContext_click (theme : value) (w : World) (attrs : gmap string string) :
  has_window w = true → root w = Some attrs →
  click ThemeContext.ThemeProvider theme w =
    mkOutcome (Ok (opposite theme, Ok tt))
      (set_root (Some (<["data-theme" := ToString (opposite theme)]> attrs)) w)
      [SetTheme (opposite theme); SetAttribute "data-theme" (ToString (opposite theme));
       SetTheme (opposite theme)].
Proof.
  intros Hw Hr.
  rewrite (click_run ThemeContext.ThemeProvider _ _ _ _ _
             (ThemeContext_toggleTheme_run theme w attrs Hw Hr)).
  rewrite settle_DepsNone by reflexivity. reflexivity.
Qed.

(** The handler of part_001 and part_002 (the same text): the state update
    and the stamp always happen, the write to the store may fail. *)
Lemma Part002_toggleTheme_run (theme : value) (w : World) (attrs : gmap string string) :
  has_window w = true → root w = Some attrs →
  Part002.toggleTheme theme w =
    let w1 := set_root (Some (<["data-theme" := ToString (opposite theme)]> attrs)) w in
    if storage_access w
    then if storage_writable w
         then mkOutcome (Ok tt) (set_items (<["theme" := ToString (opposite theme)]>) w1)
                [SetTheme (opposite theme);
                 SetAttribute "data-theme" (ToString (opposite theme));
                 SetItem "theme" (ToString (opposite theme))]
         else mkOutcome (Throw QuotaExceededError) w1
                [SetTheme (opposite theme);
                 SetAttribute "data-theme" (ToString (opposite theme))]
    else mkOutcome (Throw SecurityError) w1
           [SetTheme (opposite theme);
            SetAttribute "data-theme" (ToString (opposite theme))].
Proof.
  destruct w as [hw sa sw it mm pd rt]; simpl. intros -> ->.
  unfold Part002.toggleTheme. fold (opposite theme).
  destruct sa, sw; js_run; reflexivity.
Qed.

Lemma stamping_click (P : Provider) (theme : value) (w : World)
    (attrs : gmap string string) :
  stamping P → has_window w = true → root w = Some attrs →
  ∃ r l,
    click P theme w =
      mkOutcome (Ok (opposite theme, r))
        (let w1 := set_root (Some (<["data-theme" := ToString (opposite theme)]> attrs)) w in
         if storage_access w && storage_writable w
         then set_items (<["theme" := ToString (opposite theme)]>) w1 else w1)
        l
    ∧ (storage_access w && storage_writable w = true → r = Ok tt).
Proof.
  intros (HT & HE & HD) Hw Hr.
  pose proof (Part002_toggleTheme_run theme w attrs Hw Hr) as Ht.
  rewrite <- HT in Ht.
  destruct w as [hw sa sw it mm pd rt]; simpl in *; subst.
  destruct sa, sw; simpl in Ht;
    rewrite (click_run P _ _ _ _ _ Ht); simpl queued;
    erewrite settle_stamp; try reflexivity; try apply opposite_neq; try assumption;
    simpl; rewrite insert_insert_eq;
    (do 2 eexists; split; [reflexivity | intros; first [reflexivity | discriminate]]).
Qed.

Lemma mount_stamps (P : Provider) (w : World) (theme : value) :
  effect P = (λ t, setAttribute "data-theme" t) →
  post (initialState P w) = w →
  res (mount P w) = Ok theme →
  ∃ attrs, has_window w = true ∧ root w = Some attrs
    ∧ res (initialState P w) = Ok theme
    ∧ post (mount P w) = set_root (Some (<["data-theme" := ToString theme]> attrs)) w.
Proof.
  intros HE. unfold mount, bind, listen. rewrite HE.
  destruct (initialState P w) as [[t|e] w1 l1]; simpl; [|discriminate].
  intros ->. destruct w as [hw sa sw it mm pd rt].
  unfold setAttribute, bind, global, root_set, ret, throw; simpl.
  destruct hw; simpl; [|discriminate].
  destruct rt as [attrs|]; simpl; [|discriminate].
  unfold settle. replace (strict_eq t t) with true
    by (symmetry; by apply bool_decide_eq_true).
  simpl. intros [= ->]. eauto.
Qed.

Lemma Part002_init_pure (w : World) :
  post (Part002.useState_init w) = w ∧ effects (Part002.useState_init w) = [].
Proof.
  destruct w as [hw sa sw it mm pd rt].
  destruct hw; js_run; [|split; reflexivity].
  destruct sa; js_run; [|split; reflexivity].
  destruct (it !! "theme") as [s|]; js_step;
    [destruct (String.eqb s "")|]; js_run; destruct mm; js_run; split; reflexivity.
Qed.

Lemma Part001_init_pure (w : World) :
  post (Part001.useState_init w) = w ∧ effects (Part001.useState_init w) = [].
Proof.
  destruct w as [hw sa sw it mm pd rt].
  destruct hw; js_run; [|split; reflexivity].
  destruct sa; js_run; [|split; reflexivity].
  destruct (it !! "theme") as [s|]; js_step;
    [destruct (String.eqb s "")|]; js_run; destruct mm; js_run; split; reflexivity.
Qed.

Lemma ThemeContext_useEffect_ok (t : value) (w w1 : World) (l1 : list Effect) :
  has_window w = true →
  ThemeContext.useEffect t w = mkOutcome (Ok tt) w1 l1 →
  ∃ attrs, root w = Some attrs ∧ storage_access w = true
    ∧ w1 = set_items (<["theme" := resolved w]>)
             (set_root (Some (<["data-theme" := resolved w]> attrs)) w)
    ∧ l1 = [SetTheme (VStr (resolved w)); SetAttribute "data-theme" (resolved w);
            SetItem "theme" (resolved w)].
Proof.
  destruct w as [hw sa sw it mm pd rt]; unfold resolved; simpl. intros ->.
  unfold resolved_by_truthiness, system_theme.
  destruct sa; js_run; [|discriminate].
  destruct (it !! "theme") as [s|]; js_step;
    [destruct (String.eqb s "")|]; js_run;
    try (destruct mm; js_run; [|discriminate]);
    (destruct rt as [attrs|]; js_run; [|discriminate]);
    (destruct sw; js_run; [|discriminate]);
    try destruct pd; intros [= <- <-]; eauto.
Qed.

Lemma ThemeContext_mount_ok (w : World) (theme : value) :
  has_window w = true →
  res (mount ThemeContext.ThemeProvider w) = Ok theme →
  ∃ attrs, root w = Some attrs ∧ storage_access w = true
    ∧ theme = VStr (resolved w)
    ∧ post (mount ThemeContext.ThemeProvider w) =
        set_items (<["theme" := resolved w]>)
          (set_root (Some (<["data-theme" := resolved w]> attrs)) w).
Proof.
  intros Hw.
  destruct (ThemeContext.useEffect themes_light w) as [r w1 l1] eqn:E.
  rewrite (mount_run ThemeContext.ThemeProvider w w w1 themes_light r [] l1 eq_refl E).
  destruct r as [[]|e]; [|discriminate].
  destruct (ThemeContext_useEffect_ok _ _ _ _ Hw E) as (attrs & Hr & Hs & -> & ->).
  simpl queued. rewrite settle_DepsNone by reflexivity. simpl.
  intros [= <-]. exists attrs. repeat split; assumption.
Qed.

Lemma variants_cases (P : Provider) :
  P ∈ variants →
  P = ThemeContext.ThemeProvider
  ∨ (stamping P ∧ ∀ w, post (initialState P w) = w).
Proof.
  unfold variants. rewrite !elem_of_cons, elem_of_nil.
  intros [-> | [-> | [-> | []]]]; [by left | right | right].
  - split; [repeat split|]. intros w. apply Part001_init_pure.
  - split; [repeat split|]. intros w. apply Part002_init_pure.
Qed.

Lemma click_variant (P : Provider) (theme : value) (w : World)
    (attrs : gmap string string) :
  P ∈ variants → has_window w = true → root w = Some attrs →
  ∃ r l w1,
    click P theme w = mkOutcome (Ok (opposite theme, r)) w1 l
    ∧ has_window w1 = true
    ∧ root w1 = Some (<["data-theme" := ToString (opposite theme)]> attrs).
Proof.
  intros HP Hw Hr. destruct (variants_cases P HP) as [-> | [HS _]].
  - rewrite (ThemeContext_click theme w attrs Hw Hr).
    do 3 eexists. split; [reflexivity|]. by destruct w.
  - destruct (stamping_click P theme w attrs HS Hw Hr) as (r & l & -> & _).
    do 3 eexists. split; [reflexivity|].
    destruct w as [hw sa sw it mm pd rt]; simpl in *.
    by destruct (sa && sw).
Qed.

Lemma toggle_twice_run (P : Provider) (theme t1 t2 : value) (w w1 w2 : World)
    (r1 r2 : result unit) (l1 l2 : list Effect) :
  click P theme w = mkOutcome (Ok (t1, r1)) w1 l1 →
  click P t1 w1 = mkOutcome (Ok (t2, r2)) w2 l2 →
  toggle_twice P theme w = mkOutcome (Ok t2) w2 (l1 ++ l2 ++ []).
Proof.
  intros H1 H2. unfold toggle_twice, bind. rewrite H1. simpl. rewrite H2.
  reflexivity.
Qed.

(** The stamp agrees with the theme the holder shows. *)
Lemma mount_variant (P : Provider) (w : World) (theme : value) :
  P ∈ variants → has_window w = true →
  res (mount P w) = Ok theme →
  has_window (post (mount P w)) = true
  ∧ ∃ attrs, root (post (mount P w)) = Some attrs
      ∧ attrs !! "data-theme" = Some (ToString theme).
Proof.
  intros HP Hw Hm. destruct (variants_cases P HP) as [-> | [(_ & HE & _) Hpure]].
  - destruct (ThemeContext_mount_ok w theme Hw Hm) as (attrs & _ & _ & -> & ->).
    split; [by destruct w|]. eexists. split; [by destruct w|].
    apply lookup_insert_eq.
  - destruct (mount_stamps P w theme HE (Hpure w) Hm) as (attrs & _ & _ & _ & ->).
    split; [by destruct w|]. eexists. split; [by destruct w|].
    apply lookup_insert_eq.
Qed.

(** C6 (as amended): whenever a holder has settled in a context with a
    window, that is once its mount effect and the renders it causes have
    run, and again after every completed toggle, the data-theme attribute
    of the document root is the holder's theme, whatever the root carried
    before and however the system preference moves. *)
Theorem attribute_follows_theme (P : Provider) (w0 w : World) (theme : value) :
  P ∈ variants → has_window w0 = true →
  reachable P w0 theme w →
  root_attribute "data-theme" w = Some (ToString theme).
Proof.
  intros HP Hw0 Hreach.
  cut (has_window w = true
       ∧ ∃ attrs, root w = Some attrs ∧ attrs !! "data-theme" = Some (ToString theme)).
  { intros (_ & attrs & Hr & Ha). unfold root_attribute. rewrite Hr. exact Ha. }
  induction Hreach as [theme Hm | theme w theme' r Hreach IH Hc | theme w d Hreach IH].
  - by apply mount_variant.
  - destruct IH as (Hw & attrs & Hr & _).
    destruct (click_variant P theme w attrs HP Hw Hr) as (r' & l & w1 & E & Hw1 & Hr1).
    rewrite E in Hc |- *. simpl in Hc |- *. injection Hc as <- _.
    split; [exact Hw1|]. eexists. split; [exact Hr1|]. apply lookup_insert_eq.
  - destruct IH as (Hw & attrs & Hr & Ha).
    split; [by destruct w|]. exists attrs. split; [by destruct w | exact Ha].
Qed.

Lemma attribute_follows_theme_witness :
  root_attribute "data-theme"
    (post (click Part002.ThemeProvider (VStr "dark")
             (post (mount Part002.ThemeProvider dark_browser))))
  = Some (ToString (VStr "light")).
Proof.
  apply (attribute_follows_theme Part002.ThemeProvider dark_browser).
  - unfold variants. rewrite !elem_of_cons. right; right; left; reflexivity.
  - reflexivity.
  - apply (reach_click _ _ (VStr "dark") _ (VStr "light") (Ok tt)).
    + apply reach_mount. reflexivity.
    + reflexivity.
Defined.

(** C6 as stated fails: not at every moment. The bootstrap script stamps
    "dark" on a browser that prefers dark; the first render of
    ThemeContext.js then shows "light" over that stamp, and only the effect
    brings the two together. *)
Lemma attribute_at_first_render_counterexample :
  post (Bootstrap.themeInitializer fresh_browser) = stamped_dark_browser
  ∧ moment ThemeContext.ThemeProvider stamped_dark_browser (VStr "light")
      stamped_dark_browser
  ∧ root_attribute "data-theme" stamped_dark_browser = Some "dark"
  ∧ ¬ (∀ theme w,
         moment ThemeContext.ThemeProvider stamped_dark_browser theme w →
         root_attribute "data-theme" w = Some (ToString theme)).
Proof.
  assert (moment ThemeContext.ThemeProvider stamped_dark_browser (VStr "light")
            stamped_dark_browser) as Hm.
  { apply (moment_first_render ThemeContext.ThemeProvider stamped_dark_browser
             (VStr "light")). reflexivity. }
  repeat split; [exact Hm|].
  intros H. specialize (H _ _ Hm). vm_compute in H. discriminate.
Qed.

(** ** Toggling *)

(** Where the claim of C2 holds: the handler of part_001 and part_002
    queues the update, stamps the root and writes the store, in this order,
    and a later resolution returns the written theme whatever the system
    preference. *)
Lemma stamping_toggle_persists (P : Provider) (theme : value) (w : World)
    (attrs : gmap string string) (d : bool) :
  stamping P →
  has_window w = true → storage_access w = true → storage_writable w = true →
  root w = Some attrs →
  effects (toggleTheme P theme w) =
    [SetTheme (opposite theme);
     SetAttribute "data-theme" (ToString (opposite theme));
     SetItem "theme" (ToString (opposite theme))]
  ∧ res (click P theme w) = Ok (opposite theme, Ok tt)
  ∧ items (post (click P theme w)) !! "theme" = Some (ToString (opposite theme))
  ∧ res (Part002.useState_init (set_prefers_dark d (post (click P theme w))))
    = Ok (opposite theme).
Proof.
  intros HS Hw Hsa Hsw Hr.
  destruct (stamping_click P theme w attrs HS Hw Hr) as (r & l & E & Hok).
  rewrite E. destruct HS as (HT & _ & _). rewrite HT.
  rewrite (Part002_toggleTheme_run theme w attrs Hw Hr).
  destruct w as [hw sa sw it mm pd rt]; simpl in *; subst. simpl.
  rewrite (Hok eq_refl). repeat split.
  - apply lookup_insert_eq.
  - js_run. rewrite lookup_insert_eq. js_step.
    unfold opposite. destruct (strict_eq theme themes_light); reflexivity.
Qed.

(** C2 fails on src/context/ThemeContext.js: the handler queues the update
    twice and never writes the store. Mounted with "dark" persisted, one
    toggle leaves the holder and the root at "light" and the store at
    "dark", and a fresh resolution returns "dark" again. *)
Theorem ThemeContext_toggle_does_not_persist :
  res (mount ThemeContext.ThemeProvider dark_browser) = Ok (VStr "dark")
  ∧ effects (ThemeContext.toggleTheme (VStr "dark")
               (post (mount ThemeContext.ThemeProvider dark_browser)))
    = [SetTheme (VStr "light"); SetAttribute "data-theme" "light";
       SetTheme (VStr "light")]
  ∧ res (click ThemeContext.ThemeProvider (VStr "dark")
           (post (mount ThemeContext.ThemeProvider dark_browser)))
    = Ok (VStr "light", Ok tt)
  ∧ root_attribute "data-theme"
      (post (click ThemeContext.ThemeProvider (VStr "dark")
               (post (mount ThemeContext.ThemeProvider dark_browser))))
    = Some "light"
  ∧ items (post (click ThemeContext.ThemeProvider (VStr "dark")
                   (post (mount ThemeContext.ThemeProvider dark_browser))))
      !! "theme"
    = Some "dark"
  ∧ res (ThemeContext.getInitialTheme
           (post (click ThemeContext.ThemeProvider (VStr "dark")
                    (post (mount ThemeContext.ThemeProvider dark_browser)))))
    = Ok (VStr "dark").
Proof. repeat split. Qed.

(** ** The first render without a window *)

Lemma Part001_prerender_without_window (w : World) :
  has_window w = false →
  prerender Part001.ThemeProvider w = mkOutcome (Ok (VStr "light")) w [].
Proof. destruct w; simpl; intros ->. reflexivity. Qed.

Lemma ThemeContext_prerender (w : World) :
  prerender ThemeContext.ThemeProvider w = mkOutcome (Ok (VStr "light")) w [].
Proof. reflexivity. Qed.

Lemma Part002_prerender_without_window (w : World) :
  has_window w = false →
  prerender Part002.ThemeProvider w = mkOutcome (Throw (ReferenceError "window")) w [].
Proof. destruct w; simpl; intros ->. reflexivity. Qed.

(** C3 fails on src/unnamed/part_002: the guard on window covers only the
    left operand of the disjunction, so on the server the initialiser goes
    on to window.matchMedia and throws; the initialisers of part_001 and of
    ThemeContext.js evaluate to "light" there. *)
Theorem Part002_prerender_throws :
  res (prerender Part002.ThemeProvider server) = Throw (ReferenceError "window")
  ∧ res (prerender Part001.ThemeProvider server) = Ok (VStr "light")
  ∧ res (prerender ThemeContext.ThemeProvider server) = Ok (VStr "light").
Proof. repeat split. Qed.

(** ** Toggling twice *)

(** C5 (as amended): from a state whose theme is "light" or "dark" and
    whose root attribute equals it, two toggles, the second from the render
    after the first, bring the theme and the root attribute back to what
    they were. *)
Theorem toggle_twice_restores (P : Provider) (theme : value) (w : World) :
  P ∈ variants → has_window w = true →
  theme = themes_light ∨ theme = themes_dark →
  root_attribute "data-theme" w = Some (ToString theme) →
  res (toggle_twice P theme w) = Ok theme
  ∧ root_attribute "data-theme" (post (toggle_twice P theme w))
    = root_attribute "data-theme" w.
Proof.
  intros HP Hw Hth Hattr.
  destruct (root w) as [attrs|] eqn:Hr;
    [|unfold root_attribute in Hattr; rewrite Hr in Hattr; discriminate].
  destruct (click_variant P theme w attrs HP Hw Hr) as (r1 & l1 & w1 & E1 & Hw1 & Hr1).
  destruct (click_variant P (opposite theme) w1 _ HP Hw1 Hr1)
    as (r2 & l2 & w2 & E2 & Hw2 & Hr2).
  rewrite (toggle_twice_run P _ _ _ _ _ _ _ _ _ _ E1 E2). simpl.
  rewrite (opposite_involutive theme Hth) in *.
  split; [reflexivity|].
  rewrite Hattr. unfold root_attribute. rewrite Hr2. apply lookup_insert_eq.
Qed.

Lemma toggle_twice_restores_witness :
  res (toggle_twice ThemeContext.ThemeProvider (VStr "dark")
         (post (mount ThemeContext.ThemeProvider dark_browser)))
  = Ok (VStr "dark")
  ∧ root_attribute "data-theme"
      (post (toggle_twice ThemeContext.ThemeProvider (VStr "dark")
               (post (mount ThemeContext.ThemeProvider dark_browser))))
    = root_attribute "data-theme" (post (mount ThemeContext.ThemeProvider dark_browser)).
Proof.
  apply (toggle_twice_restores ThemeContext.ThemeProvider (VStr "dark")).
  - unfold variants. rewrite !elem_of_cons. left; reflexivity.
  - reflexivity.
  - right; reflexivity.
  - reflexivity.
Defined.

(** C5 as stated fails: a holder mounted over a persisted "blue" shows
    "blue" with the root stamped "blue"; two toggles later both are "dark". *)
Lemma toggle_twice_counterexample :
  res (mount Part002.ThemeProvider tampered_browser) = Ok (VStr "blue")
  ∧ root_attribute "data-theme" (post (mount Part002.ThemeProvider tampered_browser))
    = Some "blue"
  ∧ res (toggle_twice Part002.ThemeProvider (VStr "blue")
           (post (mount Part002.ThemeProvider tampered_browser)))
    = Ok (VStr "dark")
  ∧ root_attribute "data-theme"
      (post (toggle_twice Part002.ThemeProvider (VStr "blue")
               (post (mount Part002.ThemeProvider tampered_browser))))
    = Some "dark"
  ∧ ¬ (res (toggle_twice Part002.ThemeProvider (VStr "blue")
              (post (mount Part002.ThemeProvider tampered_browser)))
       = Ok (VStr "blue")
       ∧ root_attribute "data-theme"
           (post (toggle_twice Part002.ThemeProvider (VStr "blue")
                    (post (mount Part002.ThemeProvider tampered_browser))))
         = root_attribute "data-theme"
             (post (mount Part002.ThemeProvider tampered_browser))).
Proof.
  repeat split. intros [H _]. vm_compute in H. discriminate.
Qed.

(** ** The store after a mount of ThemeContext.js *)

Lemma getInitialTheme_stored (w : World) (t : string) :
  has_window w = true → storage_access w = true →
  items w !! "theme" = Some t → t ≠ "" →
  ThemeContext.getInitialTheme w = mkOutcome (Ok (VStr t)) w [].
Proof.
  destruct w as [hw sa sw it mm pd rt]; simpl. intros -> -> E Ht.
  js_run. rewrite E. js_step.
  destruct (String.eqb_spec t ""); [contradiction | reflexivity].
Qed.

Lemma themeInitializer_stored (w : World) (t : string) (attrs : gmap string string) :
  has_window w = true → storage_access w = true →
  items w !! "theme" = Some t → t ≠ "" → root w = Some attrs →
  Bootstrap.themeInitializer w =
    mkOutcome (Ok tt) (set_root (Some (<["data-theme" := t]> attrs)) w)
              [SetAttribute "data-theme" t].
Proof.
  destruct w as [hw sa sw it mm pd rt]; simpl. intros -> -> E Ht ->.
  js_run. rewrite E. js_step.
  destruct (String.eqb_spec t ""); [contradiction | reflexivity].
Qed.

Lemma ThemeContext_reachable_store (w0 w : World) (theme : value) :
  has_window w0 = true →
  reachable ThemeContext.ThemeProvider w0 theme w →
  res (mount ThemeContext.ThemeProvider w0) = Ok (VStr (resolved w0))
  ∧ has_window w = true ∧ storage_access w = true
  ∧ items w !! "theme" = Some (resolved w0)
  ∧ ∃ attrs, root w = Some attrs.
Proof.
  intros Hw0 Hreach.
  induction Hreach as [theme Hm | theme w theme' r Hreach IH Hc | theme w d Hreach IH].
  - destruct (ThemeContext_mount_ok w0 theme Hw0 Hm) as (attrs & Hr & Hs & -> & E).
    rewrite E. split; [exact Hm|].
    destruct w0 as [hw sa sw it mm pd rt]; simpl in *; subst.
    repeat split; [apply lookup_insert_eq | eauto].
  - destruct IH as (Hm & Hw & Hs & Hi & attrs & Hr).
    rewrite (ThemeContext_click theme w attrs Hw Hr). simpl.
    destruct w as [hw sa sw it mm pd rt]; simpl in *. eauto 10.
  - destruct IH as (Hm & Hw & Hs & Hi & attrs & Hr).
    destruct w as [hw sa sw it mm pd rt]; simpl in *. eauto 10.
Qed.

(** C10: mounting ThemeContext.js in a browser writes the resolved theme
    under the key theme, also when nothing was stored and nobody toggled.
    From then on, through any toggles and changes of the system preference,
    the store holds that theme, and a later load resolves to it whatever the
    system preference has become. *)
Theorem ThemeContext_mount_pins_preference (w0 w : World) (theme : value) :
  has_window w0 = true →
  reachable ThemeContext.ThemeProvider w0 theme w →
  ∃ t : string,
    res (mount ThemeContext.ThemeProvider w0) = Ok (VStr t)
    ∧ (items w0 !! "theme" = None → t = system_theme (prefers_dark w0))
    ∧ SetItem "theme" t ∈ effects (mount ThemeContext.ThemeProvider w0)
    ∧ items (post (mount ThemeContext.ThemeProvider w0)) !! "theme" = Some t
    ∧ items w !! "theme" = Some t
    ∧ ∀ d : bool,
        res (ThemeContext.getInitialTheme (set_prefers_dark d w)) = Ok (VStr t)
        ∧ root_attribute "data-theme"
            (post (Bootstrap.themeInitializer (set_prefers_dark d w))) = Some t.
Proof.
  intros Hw0 Hreach.
  destruct (ThemeContext_reachable_store w0 w theme Hw0 Hreach)
    as (Hm & Hw & Hs & Hi & attrs & Hr).
  destruct (ThemeContext_reachable_store w0 _ _ Hw0
              (reach_mount ThemeContext.ThemeProvider w0 _ Hm))
    as (_ & _ & _ & Hi0 & _).
  exists (resolved w0). repeat split; try assumption.
  - unfold resolved. intros ->. reflexivity.
  - destruct (ThemeContext.useEffect themes_light w0) as [r w1 l1] eqn:E.
    rewrite (mount_run ThemeContext.ThemeProvider w0 w0 w1 themes_light r [] l1
               eq_refl E) in Hm |- *.
    destruct r as [[]|e]; [|discriminate].
    destruct (ThemeContext_useEffect_ok _ _ _ _ Hw0 E) as (? & _ & _ & _ & ->).
    destruct (settle _ _ _ _). simpl. rewrite !elem_of_cons. auto.
  - rewrite (getInitialTheme_stored (set_prefers_dark d w) (resolved w0));
      [reflexivity | by destruct w .. | apply resolved_by_truthiness_nonempty].
  - rewrite (themeInitializer_stored (set_prefers_dark d w) (resolved w0) attrs);
      [| by destruct w .. | apply resolved_by_truthiness_nonempty | by destruct w].
    unfold root_attribute. simpl. apply lookup_insert_eq.
Qed.

Lemma ThemeContext_mount_pins_preference_witness :
  ∃ t : string,
    res (mount ThemeContext.ThemeProvider fresh_browser) = Ok (VStr t)
    ∧ (items fresh_browser !! "theme" = None →
       t = system_theme (prefers_dark fresh_browser))
    ∧ SetItem "theme" t ∈ effects (mount ThemeContext.ThemeProvider fresh_browser)
    ∧ items (post (mount ThemeContext.ThemeProvider fresh_browser)) !! "theme" = Some t
    ∧ items (set_prefers_dark false (post (mount ThemeContext.ThemeProvider fresh_browser)))
        !! "theme" = Some t
    ∧ ∀ d : bool,
        res (ThemeContext.getInitialTheme
               (set_prefers_dark d
                  (set_prefers_dark false
                     (post (mount ThemeContext.ThemeProvider fresh_browser)))))
        = Ok (VStr t)
        ∧ root_attribute "data-theme"
            (post (Bootstrap.themeInitializer
                     (set_prefers_dark d
                        (set_prefers_dark false
                           (post (mount ThemeContext.ThemeProvider fresh_browser))))))
          = Some t.
Proof.
  apply (ThemeContext_mount_pins_preference fresh_browser _ (VStr "dark")).
  - reflexivity.
  - apply reach_system. apply reach_mount. reflexivity.
Defined.


(** ** The useTheme hook of part_000 *)

#[local] Hint Unfold Part000.useEffect Part000.useTheme Readme.themeScript : js.

Lemma media_matches_unparenthesised (w : World) :
  media_matches "prefers-color-scheme: dark" w =
    mkOutcome (if matchMedia_available w then Ok false else Throw TypeError) w [].
Proof. unfold media_matches. destruct (matchMedia_available w); reflexivity. Qed.

(** X1: the hook only reads. Whatever the context, it leaves the store and
    the document as they are, and the only thing it does is queue state
    updates. *)
Theorem useTheme_hook_only_reads (w : World) :
  post (Part000.useTheme w) = w
  ∧ ∀ e, e ∈ effects (Part000.useTheme w) → ∃ v, e = SetTheme v.
Proof.
  destruct w as [hw sa sw it mm pd rt].
  destruct hw, sa; js_run;
    try (split; [reflexivity | intros e He; by apply elem_of_nil in He]).
  destruct (it !! "theme") as [s|]; js_step;
    [destruct (String.eqb s "")|]; js_run;
    rewrite ?media_matches_unparenthesised; js_step; destruct mm; js_step;
    (split; [reflexivity|]); intros e He;
    repeat (apply elem_of_cons in He as [-> | He]);
    first [by eexists | by apply elem_of_nil in He].
Qed.

(** X2: with nothing (or the empty string) stored, the hook settles on
    "light" whatever the system preference, because its media query lacks
    the parentheses and so never matches; the provider's own resolution
    follows the system preference in the same context. *)
Theorem useTheme_hook_ignores_system_preference (w : World) :
  readable w = true →
  items w !! "theme" = None ∨ items w !! "theme" = Some "" →
  res (Part000.useTheme w) = Ok (VStr "light")
  ∧ res (ThemeContext.getInitialTheme w) = Ok (VStr (system_theme (prefers_dark w))).
Proof.
  intros Hr Hs. rewrite (getInitialTheme_run w Hr).
  destruct w as [hw sa sw it mm pd rt]; unfold readable, resolved in *; simpl in *.
  destruct hw, sa, mm; try discriminate.
  js_run. destruct Hs as [-> | ->]; js_run;
    rewrite ?media_matches_unparenthesised; js_step; split; reflexivity.
Qed.

Lemma useTheme_hook_ignores_system_preference_witness :
  res (Part000.useTheme fresh_browser) = Ok (VStr "light")
  ∧ res (ThemeContext.getInitialTheme fresh_browser)
    = Ok (VStr (system_theme (prefers_dark fresh_browser))).
Proof.
  apply (useTheme_hook_ignores_system_preference fresh_browser);
    [reflexivity | left; reflexivity].
Defined.

(** X3: a non-empty stored string is what the hook hands out, valid theme
    or not, and window.matchMedia is not needed for it. *)
Theorem useTheme_hook_keeps_stored_string (w : World) (s : string) :
  has_window w = true → storage_access w = true →
  items w !! "theme" = Some s → s ≠ "" →
  Part000.useTheme w = mkOutcome (Ok (VStr s)) w [SetTheme (VStr s)].
Proof.
  destruct w as [hw sa sw it mm pd rt]; simpl. intros -> -> E Hs.
  js_run. rewrite E. js_step.
  destruct (String.eqb_spec s ""); [contradiction|]. js_run. reflexivity.
Qed.

Lemma useTheme_hook_keeps_stored_string_witness :
  Part000.useTheme no_matchMedia_browser
  = mkOutcome (Ok (VStr "dark")) no_matchMedia_browser [SetTheme (VStr "dark")].
Proof.
  apply (useTheme_hook_keeps_stored_string no_matchMedia_browser "dark");
    [reflexivity | reflexivity | reflexivity | discriminate].
Defined.

(** ** More on the bootstrap scripts *)

(** X4: the script shown in the README behaves as the standalone script
    in every context, failing ones included. *)
Theorem readme_script_is_themeInitializer (w : World) :
  Readme.themeScript w = Bootstrap.themeInitializer w.
Proof.
  destruct w as [hw sa sw it mm pd rt].
  destruct hw, sa; js_run; try reflexivity.
  destruct (it !! "theme") as [s|]; js_step;
    [destruct (String.eqb s "")|]; js_run;
    destruct mm, rt as [attrs|]; js_run; try destruct pd; reflexivity.
Qed.

Lemma themeInitializer_post (w : World) :
  (post (Bootstrap.themeInitializer w) = w
   ∨ ∃ attrs v, root w = Some attrs
       ∧ post (Bootstrap.themeInitializer w)
         = set_root (Some (<["data-theme" := v]> attrs)) w)
  ∧ (post (Bootstrap.getThemeScript w) = w
     ∨ ∃ attrs v, root w = Some attrs
         ∧ post (Bootstrap.getThemeScript w)
           = set_root (Some (<["data-theme" := v]> attrs)) w).
Proof.
  destruct (decide (has_window w = false ∨ storage_access w = false ∨ root w = None))
    as [Hbad | Hok].
  - destruct (bootstrap_failure w Hbad) as [-> ->]. split; by left.
  - destruct w as [hw sa sw it mm pd rt]; simpl in *.
    destruct hw; [|exfalso; apply Hok; by left].
    destruct sa; [|exfalso; apply Hok; right; by left].
    destruct rt as [attrs|]; [|exfalso; apply Hok; right; by right].
    clear Hok. js_run.
    destruct (it !! "theme") as [s|]; js_step;
      [destruct (String.eqb s "")|]; js_run; destruct mm; js_run;
      split; first [by left | right; eauto].
Qed.

(** X5: the bootstrap scripts write nothing but the data-theme attribute
    of the root. The store, the system preference and every other attribute
    are as before, whether the script succeeds or fails. *)
Theorem bootstrap_touches_only_data_theme (w : World) (name : string) :
  name ≠ "data-theme" →
  (items (post (Bootstrap.themeInitializer w)) = items w
   ∧ prefers_dark (post (Bootstrap.themeInitializer w)) = prefers_dark w
   ∧ root_attribute name (post (Bootstrap.themeInitializer w)) = root_attribute name w)
  ∧ (items (post (Bootstrap.getThemeScript w)) = items w
     ∧ prefers_dark (post (Bootstrap.getThemeScript w)) = prefers_dark w
     ∧ root_attribute name (post (Bootstrap.getThemeScript w)) = root_attribute name w).
Proof.
  intros Hn. destruct (themeInitializer_post w) as [H1 H2].
  split.
  - destruct H1 as [-> | (attrs & v & Hr & ->)]; [done|].
    unfold root_attribute. rewrite Hr. destruct w; simpl.
    repeat split. by rewrite lookup_insert_ne.
  - destruct H2 as [-> | (attrs & v & Hr & ->)]; [done|].
    unfold root_attribute. rewrite Hr. destruct w; simpl.
    repeat split. by rewrite lookup_insert_ne.
Qed.

Lemma bootstrap_touches_only_data_theme_witness :
  (items (post (Bootstrap.themeInitializer (browser ∅ true {["lang" := "en"]}))) 
   = items (browser ∅ true {["lang" := "en"]})
   ∧ prefers_dark (post (Bootstrap.themeInitializer (browser ∅ true {["lang" := "en"]})))
     = prefers_dark (browser ∅ true {["lang" := "en"]})
   ∧ root_attribute "lang" (post (Bootstrap.themeInitializer (browser ∅ true {["lang" := "en"]})))
     = root_attribute "lang" (browser ∅ true {["lang" := "en"]}))
  ∧ (items (post (Bootstrap.getThemeScript (browser ∅ true {["lang" := "en"]})))
     = items (browser ∅ true {["lang" := "en"]})
     ∧ prefers_dark (post (Bootstrap.getThemeScript (browser ∅ true {["lang" := "en"]})))
       = prefers_dark (browser ∅ true {["lang" := "en"]})
     ∧ root_attribute "lang" (post (Bootstrap.getThemeScript (browser ∅ true {["lang" := "en"]})))
       = root_attribute "lang" (browser ∅ true {["lang" := "en"]})).
Proof.
  apply (bootstrap_touches_only_data_theme (browser ∅ true {["lang" := "en"]}) "lang").
  discriminate.
Defined.

(** X6: with a non-empty string stored, the standalone script does not ask
    for the system preference and stamps the stored string also where
    window.matchMedia is missing; the script text of getThemeScript reads
    the preference first and fails there, leaving the document alone. *)
Theorem stored_theme_survives_missing_matchMedia (w : World) (s : string)
    (attrs : gmap string string) :
  has_window w = true → storage_access w = true →
  items w !! "theme" = Some s → s ≠ "" → root w = Some attrs →
  matchMedia_available w = false →
  res (Bootstrap.themeInitializer w) = Ok tt
  ∧ root_attribute "data-theme" (post (Bootstrap.themeInitializer w)) = Some s
  ∧ Bootstrap.getThemeScript w = mkOutcome (Throw TypeError) w [].
Proof.
  intros Hw Hs E Hne Hr Hm.
  rewrite (themeInitializer_stored w s attrs Hw Hs E Hne Hr).
  unfold root_attribute. simpl. split; [reflexivity|].
  split; [apply lookup_insert_eq|].
  destruct w as [hw sa sw it mm pd rt]; js_step; subst.
  js_run. reflexivity.
Qed.

Lemma stored_theme_survives_missing_matchMedia_witness :
  res (Bootstrap.themeInitializer no_matchMedia_browser) = Ok tt
  ∧ root_attribute "data-theme" (post (Bootstrap.themeInitializer no_matchMedia_browser))
    = Some "dark"
  ∧ Bootstrap.getThemeScript no_matchMedia_browser
    = mkOutcome (Throw TypeError) no_matchMedia_browser [].
Proof.
  apply (stored_theme_survives_missing_matchMedia no_matchMedia_browser "dark" ∅);
    first [reflexivity | discriminate].
Defined.

(** ** More on the runtime holder *)

Lemma stamping_click_result (P : Provider) (theme : value) (w : World)
    (attrs : gmap string string) :
  stamping P → has_window w = true → root w = Some attrs →
  ∃ l,
    click P theme w =
      mkOutcome (Ok (opposite theme, store_write_result w))
        (let w1 := set_root (Some (<["data-theme" := ToString (opposite theme)]> attrs)) w in
         if storage_access w && storage_writable w
         then set_items (<["theme" := ToString (opposite theme)]>) w1 else w1)
        l.
Proof.
  intros (HT & HE & HD) Hw Hr.
  pose proof (Part002_toggleTheme_run theme w attrs Hw Hr) as Ht.
  rewrite <- HT in Ht.
  destruct w as [hw sa sw it mm pd rt]; simpl in *; subst.
  unfold store_write_result; simpl.
  destruct sa, sw; simpl in Ht;
    rewrite (click_run P _ _ _ _ _ Ht); simpl queued;
    erewrite settle_stamp; try reflexivity; try apply opposite_neq; try assumption;
    simpl; rewrite insert_insert_eq; eexists; reflexivity.
Qed.

(** X7: when the store refuses the write, the handler of part_001 and
    part_002 fails only after the state update and the stamp: the toggle
    still takes effect in memory and on the document, and the store keeps
    its old content. *)
Theorem toggle_survives_refused_store_write (P : Provider) (theme : value)
    (w : World) (attrs : gmap string string) :
  stamping P → has_window w = true → root w = Some attrs →
  storage_access w && storage_writable w = false →
  res (click P theme w) = Ok (opposite theme, store_write_result w)
  ∧ store_write_result w ≠ Ok tt
  ∧ items (post (click P theme w)) = items w
  ∧ root_attribute "data-theme" (post (click P theme w))
    = Some (ToString (opposite theme)).
Proof.
  intros HS Hw Hr Hst.
  destruct (stamping_click_result P theme w attrs HS Hw Hr) as (l & ->).
  destruct w as [hw sa sw it mm pd rt]; simpl in *; subst.
  unfold store_write_result, root_attribute; simpl. rewrite Hst. simpl.
  repeat split; [|apply lookup_insert_eq].
  destruct sa, sw; try discriminate; simpl; discriminate.
Qed.

Lemma toggle_survives_refused_store_write_witness :
  res (click Part002.ThemeProvider (VStr "light")
         (mkWorld true true false ∅ true false (Some ∅)))
  = Ok (opposite (VStr "light"),
        store_write_result (mkWorld true true false ∅ true false (Some ∅)))
  ∧ store_write_result (mkWorld true true false ∅ true false (Some ∅)) ≠ Ok tt
  ∧ items (post (click Part002.ThemeProvider (VStr "light")
                   (mkWorld true true false ∅ true false (Some ∅))))
    = items (mkWorld true true false ∅ true false (Some ∅))
  ∧ root_attribute "data-theme"
      (post (click Part002.ThemeProvider (VStr "light")
               (mkWorld true true false ∅ true false (Some ∅))))
    = Some (ToString (opposite (VStr "light"))).
Proof.
  apply (toggle_survives_refused_store_write Part002.ThemeProvider (VStr "light")
           (mkWorld true true false ∅ true false (Some ∅)) ∅);
    [repeat split | reflexivity | reflexivity | reflexivity].
Defined.

(** X8: whatever the holder showed before, after one toggle it shows
    "light" or "dark", and the root carries the same; anything that is not
    "light", an invalid stored string included, toggles to "light". *)
Theorem toggle_lands_on_a_theme (P : Provider) (theme : value) (w : World)
    (attrs : gmap string string) :
  P ∈ variants → has_window w = true → root w = Some attrs →
  ∃ t r,
    res (click P theme w) = Ok (t, r)
    ∧ (t = VStr "light" ∨ t = VStr "dark")
    ∧ (theme ≠ VStr "light" → t = VStr "light")
    ∧ root_attribute "data-theme" (post (click P theme w)) = Some (ToString t).
Proof.
  intros HP Hw Hr.
  destruct (click_variant P theme w attrs HP Hw Hr) as (r & l & w1 & -> & _ & Hr1).
  exists (opposite theme), r. simpl.
  unfold root_attribute. rewrite Hr1. unfold opposite, strict_eq.
  destruct (bool_decide (theme = themes_light)) eqn:E.
  - apply bool_decide_eq_true in E.
    repeat split; [by right | intros H; by destruct H | apply lookup_insert_eq].
  - repeat split; [by left | apply lookup_insert_eq].
Qed.

Lemma toggle_lands_on_a_theme_witness :
  ∃ t r,
    res (click ThemeContext.ThemeProvider (VStr "blue") tampered_browser) = Ok (t, r)
    ∧ (t = VStr "light" ∨ t = VStr "dark")
    ∧ (VStr "blue" ≠ VStr "light" → t = VStr "light")
    ∧ root_attribute "data-theme"
        (post (click ThemeContext.ThemeProvider (VStr "blue") tampered_browser))
      = Some (ToString t).
Proof.
  apply (toggle_lands_on_a_theme ThemeContext.ThemeProvider (VStr "blue")
           tampered_browser ∅).
  - unfold variants. rewrite !elem_of_cons. left; reflexivity.
  - reflexivity.
  - reflexivity.
Defined.

Lemma stamping_mount_run (P : Provider) (w : World) (t : value)
    (attrs : gmap string string) :
  effect P = (λ t, setAttribute "data-theme" t) →
  initialState P w = mkOutcome (Ok t) w [] →
  has_window w = true → root w = Some attrs →
  mount P w =
    mkOutcome (Ok t) (set_root (Some (<["data-theme" := ToString t]> attrs)) w)
      [SetAttribute "data-theme" (ToString t)].
Proof.
  intros HE Hi Hw Hr.
  assert (effect P t w =
    mkOutcome (Ok tt) (set_root (Some (<["data-theme" := ToString t]> attrs)) w)
      [SetAttribute "data-theme" (ToString t)]) as He.
  { rewrite HE. destruct w as [hw sa sw it mm pd rt]; simpl in *; subst.
    js_run. reflexivity. }
  rewrite (mount_run P w w _ t _ [] _ Hi He). simpl queued.
  unfold settle. replace (strict_eq t t) with true
    by (symmetry; by apply bool_decide_eq_true).
  reflexivity.
Qed.

Lemma Part002_init_ok (w : World) (t : value) :
  has_window w = true → res (Part002.useState_init w) = Ok t →
  storage_access w = true ∧ t = VStr (resolved w)
  ∧ (items w !! "theme" = None → matchMedia_available w = true).
Proof.
  destruct w as [hw sa sw it mm pd rt]; unfold resolved; simpl. intros ->.
  unfold resolved_by_truthiness, system_theme.
  destruct sa; js_run; [|discriminate].
  destruct (it !! "theme") as [s|]; js_step;
    [destruct (String.eqb s "")|]; js_run;
    try (destruct mm; js_run; [|discriminate]);
    try destruct pd; intros [= <-]; repeat split; try discriminate.
Qed.

Lemma Part001_init_ok (w : World) (t : value) :
  has_window w = true → res (Part001.useState_init w) = Ok t →
  storage_access w = true ∧ t = VStr (resolved w)
  ∧ (items w !! "theme" = None → matchMedia_available w = true).
Proof.
  destruct w as [hw sa sw it mm pd rt]; unfold resolved; simpl. intros ->.
  unfold resolved_by_truthiness, system_theme.
  destruct sa; js_run; [|discriminate].
  destruct (it !! "theme") as [s|]; js_step;
    [destruct (String.eqb s "")|]; js_run;
    try (destruct mm; js_run; [|discriminate]);
    try destruct pd; intros [= <-]; repeat split; try discriminate.
Qed.

(** What the two stamping variants share. *)
Lemma stamping_variant (P : Provider) :
  P = Part001.ThemeProvider ∨ P = Part002.ThemeProvider →
  stamping P
  ∧ (∀ w, post (initialState P w) = w ∧ effects (initialState P w) = [])
  ∧ (∀ w t, has_window w = true → res (initialState P w) = Ok t →
       storage_access w = true ∧ t = VStr (resolved w)
       ∧ (items w !! "theme" = None → matchMedia_available w = true))
  ∧ (∀ w, readable w = true →
       initialState P w = mkOutcome (Ok (VStr (resolved w))) w []).
Proof.
  intros [-> | ->]; (split; [repeat split|]); (split; [|split]).
  - apply Part001_init_pure.
  - apply Part001_init_ok.
  - apply Part001_init_run.
  - apply Part002_init_pure.
  - apply Part002_init_ok.
  - apply Part002_init_run.
Qed.

(** X9: mounting part_001 or part_002 writes nothing but the stamp on the
    root; the store is as before. So as long as nothing is stored, a later
    mount follows the system preference of its day. *)
Theorem stamping_mount_leaves_store (P : Provider) (w : World) (theme : value) :
  P = Part001.ThemeProvider ∨ P = Part002.ThemeProvider →
  res (mount P w) = Ok theme →
  items (post (mount P w)) = items w
  ∧ effects (mount P w) = [SetAttribute "data-theme" (ToString theme)]
  ∧ (items w !! "theme" = None →
     ∀ d, res (mount P (set_prefers_dark d (post (mount P w))))
          = Ok (VStr (system_theme d))).
Proof.
  intros HP Hm.
  destruct (stamping_variant P HP) as ((_ & HE & _) & Hpure & Hok & Hrun).
  destruct (mount_stamps P w theme HE (proj1 (Hpure w)) Hm)
    as (attrs & Hw & Hr & Hi & _).
  assert (initialState P w = mkOutcome (Ok theme) w []) as Hinit.
  { destruct (Hpure w) as [H1 H2]. destruct (initialState P w); simpl in *.
    by subst. }
  rewrite (stamping_mount_run P w theme attrs HE Hinit Hw Hr). simpl.
  split; [by destruct w|]. split; [reflexivity|].
  intros Hnone d.
  destruct (Hok w theme Hw Hi) as (Hsa & _ & Hmm). specialize (Hmm Hnone).
  set (w' := set_prefers_dark d _).
  assert (readable w' = true) as Hr'.
  { unfold readable, w'. destruct w; simpl in *. by subst. }
  rewrite (stamping_mount_run P w' (VStr (resolved w'))
             (<["data-theme" := ToString theme]> attrs) HE (Hrun w' Hr')).
  - simpl. unfold resolved, w'. destruct w; simpl in *. by rewrite Hnone.
  - unfold w'. by destruct w.
  - unfold w'. by destruct w.
Qed.

Lemma stamping_mount_leaves_store_witness :
  items (post (mount Part002.ThemeProvider fresh_browser)) = items fresh_browser
  ∧ effects (mount Part002.ThemeProvider fresh_browser)
    = [SetAttribute "data-theme" (ToString (VStr "dark"))]
  ∧ (items fresh_browser !! "theme" = None →
     ∀ d, res (mount Part002.ThemeProvider
                 (set_prefers_dark d (post (mount Part002.ThemeProvider fresh_browser))))
          = Ok (VStr (system_theme d))).
Proof.
  apply (stamping_mount_leaves_store Part002.ThemeProvider fresh_browser (VStr "dark"));
    [right; reflexivity | reflexivity].
Defined.

(** X10: the handler of ThemeContext.js never touches the store: with a
    window and a root it cannot fail, whatever the state of localStorage,
    and the stored items are exactly as before. *)
Theorem ThemeContext_toggle_leaves_store (theme : value) (w : World)
    (attrs : gmap string string) :
  has_window w = true → root w = Some attrs →
  res (click ThemeContext.ThemeProvider theme w) = Ok (opposite theme, Ok tt)
  ∧ items (post (click ThemeContext.ThemeProvider theme w)) = items w
  ∧ ∀ k v, SetItem k v ∉ effects (click ThemeContext.ThemeProvider theme w).
Proof.
  intros Hw Hr. rewrite (ThemeContext_click theme w attrs Hw Hr). simpl.
  split; [reflexivity|]. split; [by destruct w|].
  intros k v H. repeat (apply elem_of_cons in H as [H | H]; [discriminate|]).
  by apply elem_of_nil in H.
Qed.

Lemma ThemeContext_toggle_leaves_store_witness :
  res (click ThemeContext.ThemeProvider (VStr "dark") blocked_storage_browser)
  = Ok (opposite (VStr "dark"), Ok tt)
  ∧ items (post (click ThemeContext.ThemeProvider (VStr "dark") blocked_storage_browser))
    = items blocked_storage_browser
  ∧ ∀ k v, SetItem k v
           ∉ effects (click ThemeContext.ThemeProvider (VStr "dark") blocked_storage_browser).
Proof.
  apply (ThemeContext_toggle_leaves_store (VStr "dark") blocked_storage_browser ∅);
    reflexivity.
Defined.

Lemma ThemeContext_useEffect_run (t : value) (w : World) (attrs : gmap string string) :
  readable w = true → root w = Some attrs →
  ThemeContext.useEffect t w =
    let w1 := set_root (Some (<["data-theme" := resolved w]> attrs)) w in
    if storage_writable w
    then mkOutcome (Ok tt) (set_items (<["theme" := resolved w]>) w1)
           [SetTheme (VStr (resolved w)); SetAttribute "data-theme" (resolved w);
            SetItem "theme" (resolved w)]
    else mkOutcome (Throw QuotaExceededError) w1
           [SetTheme (VStr (resolved w)); SetAttribute "data-theme" (resolved w)].
Proof.
  destruct w as [hw sa sw it mm pd rt]; unfold readable, resolved; simpl.
  intros H ->. destruct hw, sa, mm; try discriminate; clear H.
  unfold resolved_by_truthiness, system_theme.
  js_run. destruct (it !! "theme") as [s|]; js_step;
    [destruct (String.eqb s "")|]; js_run; destruct sw; js_run;
    try destruct pd; reflexivity.
Qed.

(** X11: in a browser where everything works, the three provider variants
    mount alike: each shows the stored string if it is non-empty and the
    system theme otherwise, and each leaves the root stamped with it. *)
Theorem variants_mount_alike (P : Provider) (store : gmap string string)
    (dark : bool) (attrs : gmap string string) :
  P ∈ variants →
  res (mount P (browser store dark attrs))
    = Ok (VStr (resolved_by_truthiness (store !! "theme") dark))
  ∧ root (post (mount P (browser store dark attrs)))
    = Some (<["data-theme" := resolved_by_truthiness (store !! "theme") dark]> attrs).
Proof.
  unfold variants. rewrite !elem_of_cons, elem_of_nil.
  intros [-> | [-> | [-> | []]]].
  - pose proof (ThemeContext_useEffect_run themes_light (browser store dark attrs) attrs
                  eq_refl eq_refl) as He.
    simpl in He.
    rewrite (mount_run ThemeContext.ThemeProvider _ _ _ themes_light _ [] _ eq_refl He).
    simpl queued. rewrite settle_DepsNone by reflexivity. split; reflexivity.
  - rewrite (stamping_mount_run Part001.ThemeProvider _ _ attrs eq_refl
               (Part001_init_run (browser store dark attrs) eq_refl) eq_refl eq_refl).
    split; reflexivity.
  - rewrite (stamping_mount_run Part002.ThemeProvider _ _ attrs eq_refl
               (Part002_init_run (browser store dark attrs) eq_refl) eq_refl eq_refl).
    split; reflexivity.
Qed.

Lemma variants_mount_alike_witness :
  res (mount Part001.ThemeProvider (browser {["theme" := "dark"]} false ∅))
    = Ok (VStr (resolved_by_truthiness
                  (({["theme" := "dark"]} : gmap string string) !! "theme") false))
  ∧ root (post (mount Part001.ThemeProvider (browser {["theme" := "dark"]} false ∅)))
    = Some (<["data-theme" := resolved_by_truthiness
                (({["theme" := "dark"]} : gmap string string) !! "theme") false]> ∅).
Proof.
  apply (variants_mount_alike Part001.ThemeProvider {["theme" := "dark"]} false ∅).
  unfold variants. rewrite !elem_of_cons. right; left; reflexivity.
Defined.

Lemma themeInitializer_ok (w : World) :
  res (Bootstrap.themeInitializer w) = Ok tt →
  has_window w = true ∧ storage_access w = true
  ∧ ∃ attrs, root w = Some attrs
      ∧ post (Bootstrap.themeInitializer w)
        = set_root (Some (<["data-theme" := resolved w]> attrs)) w.
Proof.
  destruct w as [hw sa sw it mm pd rt]; unfold resolved; simpl.
  unfold resolved_by_truthiness, system_theme.
  destruct hw; js_run; [|discriminate].
  destruct sa; js_run; [|discriminate].
  destruct (it !! "theme") as [s|]; js_step;
    [destruct (String.eqb s "")|]; js_run;
    try (destruct mm; js_run; [|discriminate]);
    (destruct rt as [attrs|]; js_run; [|discriminate]);
    try destruct pd; intros _; repeat split; eauto.
Qed.

(** X12: when the standalone script has run and a provider then mounts,
    the theme the holder settles on is the one the script stamped, and the
    mount leaves that stamp in place. The first render of part_001 and
    part_002 already shows that theme; the first render of ThemeContext.js
    shows "light" whatever was stamped. *)
Theorem mount_settles_on_bootstrap_stamp (P : Provider) (w : World) (theme : value) :
  P ∈ variants →
  res (Bootstrap.themeInitializer w) = Ok tt →
  res (mount P (post (Bootstrap.themeInitializer w))) = Ok theme →
  root_attribute "data-theme" (post (Bootstrap.themeInitializer w))
    = Some (ToString theme)
  ∧ root_attribute "data-theme" (post (mount P (post (Bootstrap.themeInitializer w))))
    = Some (ToString theme)
  ∧ (P = Part001.ThemeProvider ∨ P = Part002.ThemeProvider →
     res (first_render P (post (Bootstrap.themeInitializer w))) = Ok theme)
  ∧ (P = ThemeContext.ThemeProvider →
     res (first_render P (post (Bootstrap.themeInitializer w))) = Ok (VStr "light")).
Proof.
  intros HP Hb Hm.
  destruct (themeInitializer_ok w Hb) as (Hw & Hs & attrs & Hr & E).
  rewrite E in Hm |- *.
  set (w1 := set_root _ w) in *.
  assert (has_window w1 = true) as Hw1 by (unfold w1; by destruct w).
  assert (resolved w1 = resolved w) as Hres by (unfold w1, resolved; by destruct w).
  destruct (mount_variant P w1 theme HP Hw1 Hm) as (_ & attrs1 & Hr1 & Ha1).
  assert (theme = VStr (resolved w)
          ∧ (P = Part001.ThemeProvider ∨ P = Part002.ThemeProvider →
             res (first_render P w1) = Ok theme)) as [Hth Hfirst].
  { rewrite <- Hres. clear - HP Hm Hw1.
    unfold variants in HP. rewrite !elem_of_cons, elem_of_nil in HP.
    destruct HP as [-> | [-> | [-> | []]]].
    - destruct (ThemeContext_mount_ok w1 theme Hw1 Hm) as (_ & _ & _ & -> & _).
      split; [reflexivity|]. intros [H | H]; discriminate.
    - destruct (mount_stamps Part001.ThemeProvider w1 theme eq_refl
                  (proj1 (Part001_init_pure w1)) Hm) as (_ & _ & _ & Hi & _).
      destruct (Part001_init_ok w1 theme Hw1 Hi) as (_ & Ht & _).
      split; [exact Ht|]. intros _. exact Hi.
    - destruct (mount_stamps Part002.ThemeProvider w1 theme eq_refl
                  (proj1 (Part002_init_pure w1)) Hm) as (_ & _ & _ & Hi & _).
      destruct (Part002_init_ok w1 theme Hw1 Hi) as (_ & Ht & _).
      split; [exact Ht|]. intros _. exact Hi. }
  repeat split.
  - subst theme. unfold root_attribute, w1. destruct w; simpl. apply lookup_insert_eq.
  - unfold root_attribute. by rewrite Hr1.
  - exact Hfirst.
  - intros ->. reflexivity.
Qed.

Lemma mount_settles_on_bootstrap_stamp_witness :
  root_attribute "data-theme" (post (Bootstrap.themeInitializer tampered_browser))
    = Some (ToString (VStr "blue"))
  ∧ root_attribute "data-theme"
      (post (mount ThemeContext.ThemeProvider
               (post (Bootstrap.themeInitializer tampered_browser))))
    = Some (ToString (VStr "blue"))
  ∧ (ThemeContext.ThemeProvider = Part001.ThemeProvider
     ∨ ThemeContext.ThemeProvider = Part002.ThemeProvider →
     res (first_render ThemeContext.ThemeProvider
            (post (Bootstrap.themeInitializer tampered_browser)))
     = Ok (VStr "blue"))
  ∧ (ThemeContext.ThemeProvider = ThemeContext.ThemeProvider →
     res (first_render ThemeContext.ThemeProvider
            (post (Bootstrap.themeInitializer tampered_browser)))
     = Ok (VStr "light")).
Proof.
  apply (mount_settles_on_bootstrap_stamp ThemeContext.ThemeProvider tampered_browser
           (VStr "blue")).
  - unfold variants. rewrite !elem_of_cons. left; reflexivity.
  - reflexivity.
  - reflexivity.
Defined.

(** X13: wherever window is bound, the initialisers of part_001 and
    part_002 have the same outcome, failures included; they part only on
    the server. *)
Theorem initialisers_agree_with_window (w : World) :
  has_window w = true →
  Part001.useState_init w = Part002.useState_init w.
Proof.
  destruct w as [hw sa sw it mm pd rt]; simpl. intros ->.
  destruct sa; js_run; [|reflexivity].
  destruct (it !! "theme") as [s|]; js_step;
    [destruct (String.eqb s "")|]; js_run; destruct mm; reflexivity.
Qed.

Lemma initialisers_agree_with_window_witness :
  Part001.useState_init blocked_storage_browser
  = Part002.useState_init blocked_storage_browser.
Proof. apply (initialisers_agree_with_window blocked_storage_browser). reflexivity. Defined.

Lemma click_twice_same_render_run (P : Provider) (theme : value) (w w1 : World)
    (r : result unit) (l1 : list Effect) :
  bind (toggleTheme P theme) (λ _, toggleTheme P theme) w = mkOutcome r w1 l1 →
  click_twice_same_render P theme w =
    match settle P theme (queued theme l1) w1 with
    | mkOutcome (Ok t) w2 l2 => mkOutcome (Ok (t, r)) w2 (l1 ++ l2 ++ [])
    | mkOutcome (Throw e) w2 l2 => mkOutcome (Throw e) w2 (l1 ++ l2)
    end.
Proof.
  unfold click_twice_same_render.
  generalize (bind (toggleTheme P theme) (λ _, toggleTheme P theme)).
  intros h H. unfold bind, listen, attempt, ret. rewrite H. simpl.
  destruct (settle P theme (queued theme l1) w1) as [[t|e] w2 l2]; reflexivity.
Qed.

(** X14: the handler closes over the theme of its render. Called twice in
    one event it computes the same new theme twice: the holder ends on the
    opposite theme, not back on the original one. *)
Theorem same_render_toggles_once (P : Provider) (theme : value) (w : World)
    (attrs : gmap string string) :
  P ∈ variants → has_window w = true → root w = Some attrs →
  ∃ r,
    res (click_twice_same_render P theme w) = Ok (opposite theme, r)
    ∧ opposite theme ≠ theme
    ∧ root_attribute "data-theme" (post (click_twice_same_render P theme w))
      = Some (ToString (opposite theme)).
Proof.
  intros HP Hw Hr.
  assert (opposite theme ≠ theme) as Hne.
  { pose proof (opposite_neq theme) as H. by apply bool_decide_eq_false in H. }
  destruct (variants_cases P HP) as [-> | [(HT & HE & HD) _]].
  - assert (bind (toggleTheme ThemeContext.ThemeProvider theme)
              (λ _, toggleTheme ThemeContext.ThemeProvider theme) w
            = mkOutcome (Ok tt)
                (set_root (Some (<["data-theme" := ToString (opposite theme)]> attrs)) w)
                ([SetTheme (opposite theme);
                  SetAttribute "data-theme" (ToString (opposite theme));
                  SetTheme (opposite theme)] ++
                 [SetTheme (opposite theme);
                  SetAttribute "data-theme" (ToString (opposite theme));
                  SetTheme (opposite theme)])) as H.
    { unfold bind. change (toggleTheme ThemeContext.ThemeProvider) with ThemeContext.toggleTheme.
      rewrite (ThemeContext_toggleTheme_run theme w attrs Hw Hr).
      erewrite ThemeContext_toggleTheme_run; [|by destruct w | by destruct w].
      destruct w; simpl. by rewrite insert_insert_eq. }
    rewrite (click_twice_same_render_run _ _ _ _ _ _ H). simpl queued.
    rewrite settle_DepsNone by reflexivity. simpl.
    exists (Ok tt). repeat split; [exact Hne|].
    unfold root_attribute. destruct w; simpl. apply lookup_insert_eq.
  - destruct (bind (toggleTheme P theme) (λ _, toggleTheme P theme) w)
      as [r w1 l1] eqn:H.
    assert (queued theme l1 = opposite theme ∧ has_window w1 = true
            ∧ root w1 = Some (<["data-theme" := ToString (opposite theme)]> attrs))
      as (Hq & Hw1 & Hr1).
    { revert H. unfold bind. rewrite HT.
      rewrite (Part002_toggleTheme_run theme w attrs Hw Hr).
      destruct w as [hw sa sw it mm pd rt]; js_step; subst.
      destruct sa, sw; cbv beta iota zeta;
        try (intros [= <- <- <-]; by repeat split).
      erewrite Part002_toggleTheme_run; [|reflexivity|reflexivity].
      cbv beta iota zeta. js_step.
      intros [= <- <- <-]. rewrite insert_insert_eq. by repeat split. }
    rewrite (click_twice_same_render_run _ _ _ _ _ _ H). rewrite Hq.
    rewrite (settle_stamp P theme (opposite theme) w1 _ HD HE Hw1 Hr1 (opposite_neq theme)).
    simpl. exists r. repeat split; [exact Hne|].
    unfold root_attribute. destruct w1; simpl. apply lookup_insert_eq.
Qed.

Lemma same_render_toggles_once_witness :
  ∃ r,
    res (click_twice_same_render Part002.ThemeProvider (VStr "dark")
           (post (mount Part002.ThemeProvider dark_browser)))
    = Ok (opposite (VStr "dark"), r)
    ∧ opposite (VStr "dark") ≠ VStr "dark"
    ∧ root_attribute "data-theme"
        (post (click_twice_same_render Part002.ThemeProvider (VStr "dark")
                 (post (mount Part002.ThemeProvider dark_browser))))
      = Some (ToString (opposite (VStr "dark"))).
Proof.
  apply (same_render_toggles_once Part002.ThemeProvider (VStr "dark") _ (<["data-theme" := "dark"]> ∅)).
  - unfold variants. rewrite !elem_of_cons. right; right; left; reflexivity.
  - reflexivity.
  - reflexivity.
Defined.

(** X15: when the store refuses the write, mounting ThemeContext.js fails
    with the error of setItem, but only after the root has been stamped
    with the resolved theme; the store is unchanged. *)
Theorem ThemeContext_mount_refused_write (w : World) (attrs : gmap string string) :
  readable w = true → root w = Some attrs → storage_writable w = false →
  res (mount ThemeContext.ThemeProvider w) = Throw QuotaExceededError
  ∧ root_attribute "data-theme" (post (mount ThemeContext.ThemeProvider w))
    = Some (resolved_by_truthiness (items w !! "theme") (prefers_dark w))
  ∧ items (post (mount ThemeContext.ThemeProvider w)) = items w.
Proof.
  intros Hrd Hr Hsw.
  pose proof (ThemeContext_useEffect_run themes_light w attrs Hrd Hr) as He.
  rewrite Hsw in He. simpl in He.
  rewrite (mount_run ThemeContext.ThemeProvider w w _ themes_light _ [] _ eq_refl He).
  unfold root_attribute, resolved. destruct w; simpl.
  repeat split. apply lookup_insert_eq.
Qed.

Lemma ThemeContext_mount_refused_write_witness :
  res (mount ThemeContext.ThemeProvider (mkWorld true true false ∅ true true (Some ∅)))
    = Throw QuotaExceededError
  ∧ root_attribute "data-theme"
      (post (mount ThemeContext.ThemeProvider (mkWorld true true false ∅ true true (Some ∅))))
    = Some (resolved_by_truthiness
              (items (mkWorld true true false ∅ true true (Some ∅)) !! "theme")
              (prefers_dark (mkWorld true true false ∅ true true (Some ∅))))
  ∧ items (post (mount ThemeContext.ThemeProvider
                   (mkWorld true true false ∅ true true (Some ∅))))
    = items (mkWorld true true false ∅ true true (Some ∅)).
Proof.
  apply (ThemeContext_mount_refused_write (mkWorld true true false ∅ true true (Some ∅)) ∅);
    reflexivity.
Defined.

(** ** The install step *)

Section InstallStep.
Import Node Postinstall.

Lemma stat_nonempty (p : list string) (d : Disk) :
  p ≠ [] → stat p d = nodes d !! p.
Proof. destruct p; [congruence | reflexivity]. Qed.

Lemma publicDir_nonempty (cwd : list string) : publicDir cwd ≠ [].
Proof. unfold publicDir. destruct cwd; discriminate. Qed.

Lemma publicScriptPath_nonempty (cwd : list string) : publicScriptPath cwd ≠ [].
Proof. unfold publicScriptPath, publicDir. destruct cwd; discriminate. Qed.

Lemma scriptSrcPath_nonempty (dirname : list string) : scriptSrcPath dirname ≠ [].
Proof. unfold scriptSrcPath. destruct dirname; discriminate. Qed.

Lemma scriptSrcPath_not_publicDir (dirname cwd : list string) :
  scriptSrcPath dirname ≠ publicDir cwd.
Proof.
  unfold scriptSrcPath, publicDir. intros H. apply (f_equal last) in H.
  change ["scripts"; "themeScript.js"] with (["scripts"] ++ ["themeScript.js"])%list in H.
  rewrite app_assoc, !last_snoc in H. discriminate.
Qed.

Lemma scriptSrcPath_not_publicScriptPath (dirname cwd : list string) :
  scriptSrcPath dirname ≠ publicScriptPath cwd.
Proof.
  unfold scriptSrcPath, publicScriptPath. intros H. apply (f_equal last) in H.
  change ["scripts"; "themeScript.js"] with (["scripts"] ++ ["themeScript.js"])%list in H.
  rewrite app_assoc, !last_snoc in H. discriminate.
Qed.

Lemma publicScriptPath_not_publicDir (cwd : list string) :
  publicScriptPath cwd ≠ publicDir cwd.
Proof.
  unfold publicScriptPath. intros H. apply (f_equal length) in H.
  rewrite length_app in H. simpl in H. lia.
Qed.

Lemma publicScriptPath_parent (cwd : list string) :
  removelast (publicScriptPath cwd) = publicDir cwd.
Proof. unfold publicScriptPath. apply removelast_last. Qed.

(** With everything above the last segment in place, the recursive mkdir
    looks at the last segment only. *)
Lemma mkdir_from_last (rest prefix : list string) (seg : string) (d : Disk) :
  (∀ k : nat, (0 < k)%nat → (k ≤ length rest)%nat →
     nodes d !! (prefix ++ take k rest)%list = Some Dir) →
  mkdir_from prefix (rest ++ [seg]) d =
    match nodes d !! (prefix ++ rest ++ [seg])%list with
    | Some Dir => mkRun (Done tt) d []
    | Some (File _) => mkRun (Fail EEXIST) d []
    | None =>
        if decide ((prefix ++ rest ++ [seg])%list ∈ readonly d)
        then mkRun (Fail EACCES) d []
        else mkRun (Done tt) (put (prefix ++ rest ++ [seg])%list Dir d) []
    end.
Proof.
  revert prefix. induction rest as [|a rest IH]; intros prefix H; simpl.
  - destruct (nodes d !! (prefix ++ [seg])%list) as [[c|]|]; reflexivity.
  - pose proof (H 1%nat ltac:(lia) ltac:(simpl; lia)) as H1.
    change (nodes d !! (prefix ++ [a])%list = Some Dir) in H1.
    rewrite H1. rewrite (IH (prefix ++ [a])%list).
    + by rewrite <- !app_assoc.
    + intros k Hk Hle. rewrite <- app_assoc.
      apply (H (S k)); simpl; lia.
Qed.

Lemma mkdirSync_public (cwd : list string) (d : Disk) :
  existing_directory d cwd →
  nodes d !! publicDir cwd = None →
  mkdirSync_recursive (publicDir cwd) d =
    if decide (publicDir cwd ∈ readonly d)
    then mkRun (Fail EACCES) d []
    else mkRun (Done tt) (put (publicDir cwd) Dir d) [].
Proof.
  intros Hcwd Hnone. unfold mkdirSync_recursive, publicDir.
  rewrite (mkdir_from_last cwd [] "public" d Hcwd). simpl.
  unfold publicDir in Hnone. by rewrite Hnone.
Qed.


Lemma copy_into_public (dirname cwd : list string) (d : Disk) (c : string) :
  nodes d !! scriptSrcPath dirname = Some (File c) →
  nodes d !! publicDir cwd = Some Dir →
  nodes d !! publicScriptPath cwd ≠ Some Dir →
  publicScriptPath cwd ∉ readonly d →
  copyFileSync (scriptSrcPath dirname) (publicScriptPath cwd) d =
    mkRun (Done tt) (put (publicScriptPath cwd) (File c) d) [].
Proof.
  intros Hsrc Hpub Hdest Hro. unfold copyFileSync.
  rewrite (stat_nonempty _ d (scriptSrcPath_nonempty dirname)), Hsrc.
  rewrite publicScriptPath_parent.
  rewrite (stat_nonempty _ d (publicDir_nonempty cwd)), Hpub.
  rewrite (stat_nonempty _ d (publicScriptPath_nonempty cwd)).
  destruct (nodes d !! publicScriptPath cwd) as [[x|]|]; try congruence;
    by destruct (decide _).
Qed.

Lemma copy_missing_source (dirname cwd : list string) (d : Disk) :
  nodes d !! scriptSrcPath dirname = None →
  copyFileSync (scriptSrcPath dirname) (publicScriptPath cwd) d =
    mkRun (Fail (missing_error (scriptSrcPath dirname) d)) d [].
Proof.
  intros Hsrc. unfold copyFileSync.
  by rewrite (stat_nonempty _ d (scriptSrcPath_nonempty dirname)), Hsrc.
Qed.

Lemma copy_directory_source (dirname cwd : list string) (d : Disk) :
  nodes d !! scriptSrcPath dirname = Some Dir →
  nodes d !! publicDir cwd = Some Dir →
  nodes d !! publicScriptPath cwd ≠ Some Dir →
  publicScriptPath cwd ∉ readonly d →
  copyFileSync (scriptSrcPath dirname) (publicScriptPath cwd) d =
    mkRun (Fail EISDIR) (remove (publicScriptPath cwd) d) [].
Proof.
  intros Hsrc Hpub Hdest Hro. unfold copyFileSync.
  rewrite (stat_nonempty _ d (scriptSrcPath_nonempty dirname)), Hsrc.
  rewrite publicScriptPath_parent.
  rewrite (stat_nonempty _ d (publicDir_nonempty cwd)), Hpub.
  rewrite (stat_nonempty _ d (publicScriptPath_nonempty cwd)).
  destruct (nodes d !! publicScriptPath cwd) as [[x|]|]; try congruence;
    by destruct (decide _).
Qed.

(** With the directories down to [prefix ++ rest] in place, the reason a
    path below them is missing is found below them. *)
Lemma missing_from_chain (rest prefix tail : list string) (d : Disk) :
  (∀ k : nat, (0 < k)%nat → (k ≤ length rest)%nat →
     nodes d !! (prefix ++ take k rest)%list = Some Dir) →
  missing_from prefix (rest ++ tail) d = missing_from (prefix ++ rest) tail d.
Proof.
  revert prefix. induction rest as [|a rest IH]; intros prefix H; simpl.
  - by rewrite app_nil_r.
  - pose proof (H 1%nat ltac:(lia) ltac:(simpl; lia)) as H1.
    change (nodes d !! (prefix ++ [a])%list = Some Dir) in H1.
    rewrite H1. rewrite (IH (prefix ++ [a])%list).
    + by rewrite <- app_assoc.
    + intros k Hk Hle. rewrite <- app_assoc.
      apply (H (S k)); simpl; lia.
Qed.

Lemma missing_error_cases (p : list string) (d : Disk) :
  missing_error p d = ENOENT ∨ missing_error p d = ENOTDIR.
Proof.
  unfold missing_error. generalize (@nil string) as prefix.
  induction p as [|seg rest IH]; intros prefix; simpl; [by left|].
  destruct (nodes d !! (prefix ++ [seg])%list) as [[c|]|]; [| apply IH | by left].
  destruct rest; [by left | by right].
Qed.

Lemma directory_step (cwd : list string) (d : Disk) :
  public_ready cwd d →
  fbind (existsSync (publicDir cwd))
    (λ e, if negb e then mkdirSync_recursive (publicDir cwd) else fret tt) d
  = mkRun (Done tt) (with_public cwd d) []
  ∧ nodes (with_public cwd d) !! publicDir cwd = Some Dir
  ∧ readonly (with_public cwd d) = readonly d
  ∧ ∀ p, p ≠ publicDir cwd → nodes (with_public cwd d) !! p = nodes d !! p.
Proof.
  unfold fbind, existsSync, fret, with_public.
  rewrite (stat_nonempty _ d (publicDir_nonempty cwd)).
  intros [Hpub | (Hnone & Hro & Hcwd)].
  - rewrite Hpub. simpl. repeat split. exact Hpub.
  - rewrite Hnone. simpl. rewrite (mkdirSync_public cwd d Hcwd Hnone).
    destruct (decide _) as [|_]; [contradiction|]. simpl.
    repeat split; [apply lookup_insert_eq|].
    intros p Hp. by apply lookup_insert_ne.
Qed.

Lemma postinstall_steps (dirname cwd : list string) (d d1 : Disk) :
  fbind (existsSync (publicDir cwd))
    (λ e, if negb e then mkdirSync_recursive (publicDir cwd) else fret tt) d
  = mkRun (Done tt) d1 [] →
  postinstall dirname cwd d =
    match copyFileSync (scriptSrcPath dirname) (publicScriptPath cwd) d1 with
    | mkRun (Done _) d2 l => mkRun (Done tt) d2 (l ++ [install_message])
    | mkRun (Fail e) d2 l => mkRun (Fail e) d2 l
    end.
Proof.
  intros H. unfold postinstall. revert H. unfold fbind, console_log.
  destruct (existsSync (publicDir cwd) d) as [[e|e] d0 l0]; [|discriminate].
  destruct e; simpl;
    [|destruct (mkdirSync_recursive (publicDir cwd) d0) as [[[]|e'] d0' l0'];
      [|discriminate]];
    intros [= -> Hl]; apply app_eq_nil in Hl as [-> Hl]; try subst l0'; simpl.
  all: destruct (copyFileSync _ _ d1) as [[[]|e''] d2 l2]; reflexivity.
Qed.

Lemma postinstall_run (dirname cwd : list string) (d : Disk) (c : string) :
  nodes d !! scriptSrcPath dirname = Some (File c) →
  public_ready cwd d →
  nodes d !! publicScriptPath cwd ≠ Some Dir →
  publicScriptPath cwd ∉ readonly d →
  postinstall dirname cwd d =
    mkRun (Done tt) (put (publicScriptPath cwd) (File c) (with_public cwd d))
          [install_message].
Proof.
  intros Hsrc Hready Hdest Hro.
  destruct (directory_step cwd d Hready) as (Hstep & Hpub & Hro1 & Hframe).
  rewrite (postinstall_steps dirname cwd d _ Hstep).
  rewrite (copy_into_public dirname cwd _ c); [reflexivity | | exact Hpub | | ].
  - rewrite Hframe; [exact Hsrc | apply scriptSrcPath_not_publicDir].
  - rewrite Hframe; [exact Hdest | apply publicScriptPath_not_publicDir].
  - by rewrite Hro1.
Qed.

(** X16: where the package script is a file and the public directory is
    there or can be made, the install step succeeds: public is a
    directory, the destination holds the content of the package script
    whatever was there before, the one line is printed, and nothing else on
    the disk has changed. *)
Theorem postinstall_installs_script (dirname cwd : list string) (d : Disk)
    (c : string) :
  nodes d !! scriptSrcPath dirname = Some (File c) →
  public_ready cwd d →
  nodes d !! publicScriptPath cwd ≠ Some Dir →
  publicScriptPath cwd ∉ readonly d →
  outcome (postinstall dirname cwd d) = Done tt
  ∧ console (postinstall dirname cwd d) = [install_message]
  ∧ nodes (disk (postinstall dirname cwd d)) !! publicScriptPath cwd = Some (File c)
  ∧ nodes (disk (postinstall dirname cwd d)) !! publicDir cwd = Some Dir
  ∧ ∀ p, p ≠ publicDir cwd → p ≠ publicScriptPath cwd →
         nodes (disk (postinstall dirname cwd d)) !! p = nodes d !! p.
Proof.
  intros Hsrc Hready Hdest Hro.
  rewrite (postinstall_run dirname cwd d c Hsrc Hready Hdest Hro).
  destruct (directory_step cwd d Hready) as (_ & Hpub & _ & Hframe).
  simpl. repeat split.
  - apply lookup_insert_eq.
  - rewrite lookup_insert_ne; [exact Hpub|]. apply publicScriptPath_not_publicDir.
  - intros p Hp1 Hp2. rewrite lookup_insert_ne by congruence. by apply Hframe.
Qed.

Lemma postinstall_installs_script_witness :
  outcome (postinstall ["pkg"] ["app"] fresh_project) = Done tt
  ∧ console (postinstall ["pkg"] ["app"] fresh_project) = [install_message]
  ∧ nodes (disk (postinstall ["pkg"] ["app"] fresh_project)) !! publicScriptPath ["app"]
    = Some (File "(function() {})();")
  ∧ nodes (disk (postinstall ["pkg"] ["app"] fresh_project)) !! publicDir ["app"]
    = Some Dir
  ∧ ∀ p, p ≠ publicDir ["app"] → p ≠ publicScriptPath ["app"] →
         nodes (disk (postinstall ["pkg"] ["app"] fresh_project)) !! p
         = nodes fresh_project !! p.
Proof.
  apply (postinstall_installs_script ["pkg"] ["app"] fresh_project "(function() {})();").
  - reflexivity.
  - right. split; [reflexivity|]. split; [vm_compute; set_solver|].
    intros [|[|k]] H1 H2; simpl in *; [lia | reflexivity | lia].
  - vm_compute. discriminate.
  - vm_compute. set_solver.
Defined.

(** X17: the install step is idempotent. Run again on the disk it left, it
    succeeds again, prints the same line and leaves that disk as it is. *)
Theorem postinstall_idempotent (dirname cwd : list string) (d : Disk) (c : string) :
  nodes d !! scriptSrcPath dirname = Some (File c) →
  public_ready cwd d →
  nodes d !! publicScriptPath cwd ≠ Some Dir →
  publicScriptPath cwd ∉ readonly d →
  postinstall dirname cwd (disk (postinstall dirname cwd d))
  = postinstall dirname cwd d.
Proof.
  intros Hsrc Hready Hdest Hro.
  destruct (directory_step cwd d Hready) as (_ & Hpub & Hro1 & Hframe).
  rewrite (postinstall_run dirname cwd d c Hsrc Hready Hdest Hro). simpl.
  set (d1 := with_public cwd d) in *.
  assert (nodes (put (publicScriptPath cwd) (File c) d1) !! publicDir cwd = Some Dir)
    as Hpub2.
  { simpl. rewrite lookup_insert_ne; [exact Hpub|]. apply publicScriptPath_not_publicDir. }
  rewrite (postinstall_run dirname cwd _ c).
  - unfold with_public. rewrite Hpub2. unfold put. simpl.
    by rewrite insert_insert_eq.
  - simpl. rewrite lookup_insert_ne.
    + rewrite Hframe; [exact Hsrc | apply scriptSrcPath_not_publicDir].
    + intros H. symmetry in H. by apply scriptSrcPath_not_publicScriptPath in H.
  - by left.
  - simpl. rewrite lookup_insert_eq. discriminate.
  - simpl. by rewrite Hro1.
Qed.

Lemma postinstall_idempotent_witness :
  postinstall ["pkg"] ["app"] (disk (postinstall ["pkg"] ["app"] fresh_project))
  = postinstall ["pkg"] ["app"] fresh_project.
Proof.
  apply (postinstall_idempotent ["pkg"] ["app"] fresh_project "(function() {})();").
  - reflexivity.
  - right. split; [reflexivity|]. split; [vm_compute; set_solver|].
    intros [|[|k]] H1 H2; simpl in *; [lia | reflexivity | lia].
  - vm_compute. discriminate.
  - vm_compute. set_solver.
Defined.

(** X18: when nothing is at the path of the package script and the
    directory step can be taken, the install step fails and prints nothing:
    with ENOENT where the scripts directory of the package exists, with
    ENOTDIR where scripts is a regular file in the package directory. The
    directory step has run by then, so a public directory that was not
    there is left behind; what was at the destination is still there. *)
Theorem postinstall_missing_source (dirname cwd : list string) (d : Disk) :
  nodes d !! scriptSrcPath dirname = None →
  public_ready cwd d →
  (∃ e, outcome (postinstall dirname cwd d) = Fail e
        ∧ (e = ENOENT ∨ e = ENOTDIR)
        ∧ (existing_directory d (dirname ++ ["scripts"])%list → e = ENOENT)
        ∧ (existing_directory d dirname →
           (∃ x, nodes d !! (dirname ++ ["scripts"])%list = Some (File x)) →
           e = ENOTDIR))
  ∧ console (postinstall dirname cwd d) = []
  ∧ nodes (disk (postinstall dirname cwd d)) !! publicDir cwd = Some Dir
  ∧ nodes (disk (postinstall dirname cwd d)) !! publicScriptPath cwd
    = nodes d !! publicScriptPath cwd.
Proof.
  intros Hsrc Hready.
  destruct (directory_step cwd d Hready) as (Hstep & Hpub & _ & Hframe).
  rewrite (postinstall_steps dirname cwd d _ Hstep).
  assert (nodes (with_public cwd d) !! scriptSrcPath dirname = None) as Hsrc1.
  { rewrite Hframe; [exact Hsrc | apply scriptSrcPath_not_publicDir]. }
  assert (∀ p, nodes d !! p = Some Dir → nodes (with_public cwd d) !! p = Some Dir)
    as Hdirs.
  { intros p Hp. destruct (decide (p = publicDir cwd)) as [-> | Hne];
      [exact Hpub | by rewrite Hframe]. }
  rewrite (copy_missing_source dirname cwd _ Hsrc1). simpl.
  split; [|repeat split; [exact Hpub | apply Hframe, publicScriptPath_not_publicDir]].
  eexists. split; [reflexivity|]. split; [apply missing_error_cases|]. split.
  - intros Hdir. unfold missing_error, scriptSrcPath.
    change ["scripts"; "themeScript.js"] with (["scripts"] ++ ["themeScript.js"])%list.
    rewrite app_assoc.
    rewrite (missing_from_chain (dirname ++ ["scripts"]) [] ["themeScript.js"]).
    + simpl. unfold scriptSrcPath in Hsrc1.
      change ["scripts"; "themeScript.js"] with (["scripts"] ++ ["themeScript.js"])%list
        in Hsrc1.
      rewrite app_assoc in Hsrc1. by rewrite Hsrc1.
    + intros k Hk Hle. simpl. by apply Hdirs, Hdir.
  - intros Hdir [x Hx]. unfold missing_error, scriptSrcPath.
    rewrite (missing_from_chain dirname [] ["scripts"; "themeScript.js"]).
    + simpl. rewrite Hframe; [by rewrite Hx|].
      unfold publicDir. intros H. apply (f_equal last) in H.
      rewrite !last_snoc in H. discriminate.
    + intros k Hk Hle. simpl. by apply Hdirs, Hdir.
Qed.

Lemma postinstall_missing_source_witness :
  (∃ e, outcome (postinstall ["elsewhere"] ["app"] fresh_project) = Fail e
        ∧ (e = ENOENT ∨ e = ENOTDIR)
        ∧ (existing_directory fresh_project (["elsewhere"] ++ ["scripts"])%list →
           e = ENOENT)
        ∧ (existing_directory fresh_project ["elsewhere"] →
           (∃ x, nodes fresh_project !! (["elsewhere"] ++ ["scripts"])%list
                 = Some (File x)) →
           e = ENOTDIR))
  ∧ console (postinstall ["elsewhere"] ["app"] fresh_project) = []
  ∧ nodes (disk (postinstall ["elsewhere"] ["app"] fresh_project)) !! publicDir ["app"]
    = Some Dir
  ∧ nodes (disk (postinstall ["elsewhere"] ["app"] fresh_project))
      !! publicScriptPath ["app"]
    = nodes fresh_project !! publicScriptPath ["app"].
Proof.
  apply (postinstall_missing_source ["elsewhere"] ["app"] fresh_project).
  - reflexivity.
  - right. split; [reflexivity|]. split; [vm_compute; set_solver|].
    intros [|[|k]] H1 H2; simpl in *; [lia | reflexivity | lia].
Defined.

(** X19: when public exists but is a regular file, the directory step is
    skipped (existsSync is true) and the step always fails, prints nothing
    and leaves the disk untouched: with ENOTDIR when something is at the
    path of the package script, and with the error of the missing source
    when nothing is. *)
Theorem postinstall_public_is_a_file (dirname cwd : list string) (d : Disk)
    (x : string) :
  nodes d !! publicDir cwd = Some (File x) →
  postinstall dirname cwd d =
    mkRun (Fail (match nodes d !! scriptSrcPath dirname with
                 | Some _ => ENOTDIR
                 | None => missing_error (scriptSrcPath dirname) d
                 end)) d [].
Proof.
  intros Hpub.
  rewrite (postinstall_steps dirname cwd d d).
  - unfold copyFileSync.
    rewrite (stat_nonempty _ d (scriptSrcPath_nonempty dirname)).
    destruct (nodes d !! scriptSrcPath dirname) as [n|]; [|reflexivity].
    rewrite publicScriptPath_parent.
    by rewrite (stat_nonempty _ d (publicDir_nonempty cwd)), Hpub.
  - unfold fbind, existsSync, fret.
    by rewrite (stat_nonempty _ d (publicDir_nonempty cwd)), Hpub.
Qed.

Lemma postinstall_public_is_a_file_witness :
  postinstall ["pkg"] ["app"] (put ["app"; "public"] (File "") fresh_project)
  = mkRun (Fail (match nodes (put ["app"; "public"] (File "") fresh_project)
                         !! scriptSrcPath ["pkg"] with
                 | Some _ => ENOTDIR
                 | None => missing_error (scriptSrcPath ["pkg"])
                             (put ["app"; "public"] (File "") fresh_project)
                 end))
      (put ["app"; "public"] (File "") fresh_project) [].
Proof.
  apply (postinstall_public_is_a_file ["pkg"] ["app"] _ ""). reflexivity.
Defined.





(** X21: when the path of the package script is a directory and the
    directory step can be taken, the step fails with EISDIR and prints
    nothing, and a file that was at the destination is gone: the copy opens
    and truncates the destination before it fails, and unlinks it after. *)
Theorem postinstall_directory_source (dirname cwd : list string) (d : Disk) :
  nodes d !! scriptSrcPath dirname = Some Dir →
  public_ready cwd d →
  nodes d !! publicScriptPath cwd ≠ Some Dir →
  publicScriptPath cwd ∉ readonly d →
  outcome (postinstall dirname cwd d) = Fail EISDIR
  ∧ console (postinstall dirname cwd d) = []
  ∧ nodes (disk (postinstall dirname cwd d)) !! publicScriptPath cwd = None
  ∧ nodes (disk (postinstall dirname cwd d)) !! publicDir cwd = Some Dir
  ∧ ∀ p, p ≠ publicDir cwd → p ≠ publicScriptPath cwd →
         nodes (disk (postinstall dirname cwd d)) !! p = nodes d !! p.
Proof.
  intros Hsrc Hready Hdest Hro.
  destruct (directory_step cwd d Hready) as (Hstep & Hpub & Hro1 & Hframe).
  rewrite (postinstall_steps dirname cwd d _ Hstep).
  rewrite (copy_directory_source dirname cwd).
  - simpl. repeat split.
    + apply lookup_delete_eq.
    + rewrite lookup_delete_ne; [exact Hpub|]. apply publicScriptPath_not_publicDir.
    + intros p Hp1 Hp2. rewrite lookup_delete_ne by congruence. by apply Hframe.
  - rewrite Hframe; [exact Hsrc | apply scriptSrcPath_not_publicDir].
  - exact Hpub.
  - rewrite Hframe; [exact Hdest | apply publicScriptPath_not_publicDir].
  - by rewrite Hro1.
Qed.

Lemma postinstall_directory_source_witness :
  outcome (postinstall ["pkg"] ["app"] installed_over_directory) = Fail EISDIR
  ∧ console (postinstall ["pkg"] ["app"] installed_over_directory) = []
  ∧ nodes (disk (postinstall ["pkg"] ["app"] installed_over_directory))
      !! publicScriptPath ["app"] = None
  ∧ nodes (disk (postinstall ["pkg"] ["app"] installed_over_directory))
      !! publicDir ["app"] = Some Dir
  ∧ ∀ p, p ≠ publicDir ["app"] → p ≠ publicScriptPath ["app"] →
         nodes (disk (postinstall ["pkg"] ["app"] installed_over_directory)) !! p
         = nodes installed_over_directory !! p.
Proof.
  apply (postinstall_directory_source ["pkg"] ["app"] installed_over_directory).
  - reflexivity.
  - left. reflexivity.
  - vm_compute. discriminate.
  - vm_compute. set_solver.
Defined.

End InstallStep.
